(** * comment-server: the peewee query layer ([src/database/ddl.py]) and the
    JSON-RPC dispatcher ([src/handles.py]), embedded as executable
    definitions, followed by the properties established about them. *)

From Stdlib Require Import ZArith String Ascii Lia.
From stdpp Require Import base option list strings gmap sorting.

#[local] Set Warnings "-register-all".
Local Open Scope string_scope.
Local Open Scope Z_scope.

(** ** Python values, exceptions and results *)

(** The values that travel through the program: decoded JSON bodies, query
    parameters, rows returned by [dicts()] and response envelopes.  A [VDict]
    keeps its entries in insertion order, as a Python dict does; keys are
    strings and occur at most once. *)
Inductive value : Type :=
| VNone
| VBool (b : bool)
| VInt (z : Z)
| VFloat (binary64 : Z)
| VStr (s : string)
| VList (l : list value)
| VTuple (l : list value)
| VDict (d : list (string * value)).

Abbreviation dict := (list (string * value)).

(** The exception classes the two files can meet.  [JSONDecodeError] is a
    subclass of [ValueError]; [KeyError] and [IndexError] are [LookupError]s;
    every class here derives from [Exception]. *)
Inductive exn : Type :=
| TypeError
| ValueError
| JSONDecodeError
| KeyError
| IndexError
| ZeroDivisionError
| AttributeError
| OtherException (cls : string).

Inductive outcome (A : Type) : Type :=
| Return (a : A)
| Raise (e : exn).
Arguments Return {A} a.
Arguments Raise {A} e.

Definition outcome_bind {A B} (f : A → outcome B) (m : outcome A) : outcome B :=
  match m with
  | Return a => f a
  | Raise e => Raise e
  end.

#[global] Instance outcome_ret : MRet outcome := @Return.
#[global] Instance outcome_mbind : MBind outcome := @outcome_bind.
#[global] Instance outcome_fmap : FMap outcome :=
  λ A B f m, match m with Return a => Return (f a) | Raise e => Raise e end.

Definition isinstance_TypeError (e : exn) : bool :=
  match e with TypeError => true | _ => false end.

Definition isinstance_ValueError (e : exn) : bool :=
  match e with ValueError | JSONDecodeError => true | _ => false end.

Definition isinstance_JSONDecodeError (e : exn) : bool :=
  match e with JSONDecodeError => true | _ => false end.

(** [d.get(k)] *)
Fixpoint dict_get (k : string) (d : dict) : option value :=
  match d with
  | [] => None
  | (k', v) :: d' => if decide (k = k') then Some v else dict_get k d'
  end.

(** [d[k] = v]: an existing key keeps its position, a new key goes last. *)
Fixpoint dict_set (k : string) (v : value) (d : dict) : dict :=
  match d with
  | [] => [(k, v)]
  | (k', v') :: d' =>
      if decide (k = k') then (k, v) :: d' else (k', v') :: dict_set k v d'
  end.

(** [d.update(other)] *)
Definition dict_update (other d : dict) : dict :=
  foldl (λ acc kv, dict_set kv.1 kv.2 acc) d other.

(** [d[k]], which raises [KeyError] on a missing key. *)
Definition dict_item (k : string) (d : dict) : outcome value :=
  match dict_get k d with
  | Some v => Return v
  | None => Raise KeyError
  end.

Definition dict_keys (d : dict) : list string := d.*1.

(** [str.lower()] on the ASCII range, which is all that a comparison with
    the literal ['hidden'] can observe. *)
Definition ascii_lower (a : ascii) : ascii :=
  let n := nat_of_ascii a in
  if (65 <=? n)%nat && (n <=? 90)%nat then ascii_of_nat (n + 32) else a.

Fixpoint lower (s : string) : string :=
  match s with
  | EmptyString => EmptyString
  | String a s' => String (ascii_lower a) (lower s')
  end.

(** Truthiness of an optional string and of an optional list, as tested by
    [if claim_id:] and [if exclude_fields:]. *)
Definition truthy_str (o : option string) : bool :=
  match o with
  | Some s => negb (String.eqb s "")
  | None => false
  end.

Definition truthy_list {A} (o : option (list A)) : bool :=
  match o with
  | Some (_ :: _) => true
  | _ => false
  end.

(** ** The storage schema ([src/database/ddl.py]) *)

Module ddl.

Module Channel.
Record t := mk { claim_id : string; name : string }.
End Channel.

Module Comment.
(** One row of table COMMENT, fields in the order of the model class.
    [channel] and [parent] hold the raw foreign keys ([ChannelId],
    [ParentId]); the three [null=True] columns besides them are options. *)
Record t := mk {
    comment : string;
    channel : option string;
    comment_id : string;
    is_hidden : bool;
    claim_id : string;
    parent : option string;
    signature : option string;
    signing_ts : option string;
    timestamp : Z
}.
End Comment.

(** The database behind [database]: the COMMENT rows in rowid order, and
    table CHANNEL as a finite map from its primary key [ClaimId] to [Name]. *)
Record Database := {
  COMMENT : list Comment.t;
  CHANNEL : gmap string string
}.

(** A comment row after [.join(Channel, JOIN.LEFT_OUTER)]: the channel row
    is the one whose primary key equals the comment's [ChannelId], if any. *)
Definition joined : Type := Comment.t * option Channel.t.

Definition left_outer_join (channels : gmap string string) (c : Comment.t) : joined :=
  (c, ch ← Comment.channel c; n ← channels !! ch; Some (Channel.mk ch n)).

Definition opt_str (o : option string) : value :=
  match o with Some s => VStr s | None => VNone end.

(** [FIELDS]: logical field name to the expression selected for it. *)
Definition FIELDS : list (string * (joined → value)) :=
  [ ("comment", λ r, VStr (Comment.comment r.1));
    ("comment_id", λ r, VStr (Comment.comment_id r.1));
    ("claim_id", λ r, VStr (Comment.claim_id r.1));
    ("timestamp", λ r, VInt (Comment.timestamp r.1));
    ("signature", λ r, opt_str (Comment.signature r.1));
    ("signing_ts", λ r, opt_str (Comment.signing_ts r.1));
    ("is_hidden", λ r, VBool (Comment.is_hidden r.1));
    ("parent_id", λ r, opt_str (Comment.parent r.1));
    ("channel_id", λ r, opt_str (Channel.claim_id <$> r.2));
    ("channel_name", λ r, opt_str (Channel.name <$> r.2));
    ("channel_url",
      λ r, opt_str ((λ ch, "lbry://" +:+ Channel.name ch +:+ "#" +:+ Channel.claim_id ch) <$> r.2)) ].

(** What [Comment.select()] projects when it is given no expression at
    all: peewee falls back to every field of the model, under the field's
    own name, the primary key first. *)
Definition MODEL_FIELDS : list (string * (joined → value)) :=
  [ ("comment_id", λ r, VStr (Comment.comment_id r.1));
    ("comment", λ r, VStr (Comment.comment r.1));
    ("channel", λ r, opt_str (Comment.channel r.1));
    ("is_hidden", λ r, VBool (Comment.is_hidden r.1));
    ("claim_id", λ r, VStr (Comment.claim_id r.1));
    ("parent", λ r, opt_str (Comment.parent r.1));
    ("signature", λ r, opt_str (Comment.signature r.1));
    ("signing_ts", λ r, opt_str (Comment.signing_ts r.1));
    ("timestamp", λ r, VInt (Comment.timestamp r.1)) ].

Fixpoint registry_get {A} (k : string) (reg : list (string * A)) : option A :=
  match reg with
  | [] => None
  | (k', a) :: reg' => if decide (k = k') then Some a else registry_get k reg'
  end.

(** ** The projection and pagination engine *)

(** Lines 86-90: the surviving field names.  [FIELDS.keys()] is a key view;
    [-=] and [&=] rebind [fields] to a set. *)
Definition selected_fields (select_fields exclude_fields : option (list string)) : gset string :=
  let fields : gset string := list_to_set (FIELDS.*1) in
  let fields :=
    if truthy_list exclude_fields
    then fields ∖ list_to_set (default [] exclude_fields) else fields in
  let fields :=
    if truthy_list select_fields
    then fields ∩ list_to_set (default [] select_fields) else fields in
  fields.

(** Line 91: [[FIELDS[field] for field in fields]], each expression kept
    with the name it is selected under. *)
Definition attributes_of (fields : gset string) : list (string * (joined → value)) :=
  omap (λ field, (field,.) <$> registry_get field FIELDS) (elements fields).

(** Line 92: the call of [Comment.select] on the unpacked attributes. *)
Definition select (attributes : list (string * (joined → value)))
  : list (string * (joined → value)) :=
  match attributes with
  | [] => MODEL_FIELDS
  | _ => attributes
  end.

(** One row of [query.dicts()]. *)
Definition row_dict (columns : list (string * (joined → value))) (r : joined) : dict :=
  (λ col, (col.1, col.2 r)) <$> columns.

Definition is_None (v : value) : bool :=
  match v with VNone => true | _ => false end.

(** [clean]: drop the entries whose value is [None]. *)
Definition clean (thing : dict) : dict :=
  filter (λ kv, negb (is_None kv.2)) thing.

(** [.order_by(Comment.timestamp.desc())] *)
Definition newer_first (a b : Comment.t) : Prop :=
  Comment.timestamp b ≤ Comment.timestamp a.

#[global] Instance newer_first_dec : RelDecision newer_first :=
  λ a b, Z_le_dec (Comment.timestamp b) (Comment.timestamp a).

Definition order_by_timestamp_desc (rows : list Comment.t) : list Comment.t :=
  merge_sort newer_first rows.

(** [.paginate(page, page_size)]: peewee turns a positive page into a
    zero-based one, sets LIMIT [page_size] and OFFSET [page * page_size].
    SQLite reads a negative OFFSET as 0 and a negative LIMIT as no limit. *)
Definition paginate {A} (page page_size : Z) (rows : list A) : list A :=
  let page := if decide (0 < page) then page - 1 else page in
  let limit := page_size in
  let offset := page * page_size in
  let rows := drop (Z.to_nat offset) rows in
  if decide (limit < 0) then rows else take (Z.to_nat limit) rows.

(** [math.ceil(total / page_size)].  The quotient is taken exactly; Python
    takes it in binary64, which agrees for the row counts and page sizes a
    64-bit SQLite integer can hold. *)
Definition ceil_div (total page_size : Z) : outcome Z :=
  if decide (page_size = 0) then Raise ZeroDivisionError
  else Return (- ((- total) `div` page_size)).

(** Lines 95-108: the rows that survive the [where] clauses.  Each guard
    tests the truthiness of its argument, so an empty string adds no clause.
    [Comment.ParentId] is the accessor peewee installs for the foreign key
    [parent] under its column name; it stands for the raw parent reference,
    and an SQL comparison with a null reference keeps no row.  An expression
    object is always truthy. *)
Definition where_clauses (claim_id parent_id : option string) (top_level : bool)
    (exclude_mode : option string) (expressions : option (Comment.t → bool))
    (query : list Comment.t) : list Comment.t :=
  let query :=
    if truthy_str claim_id then
      let query := filter (λ c, Some (Comment.claim_id c) = claim_id) query in
      if top_level then filter (λ c, Comment.parent c = None) query else query
    else query in
  let query :=
    if truthy_str parent_id
    then filter (λ c, Comment.parent c = parent_id) query else query in
  let query :=
    if truthy_str exclude_mode then
      let show_hidden := String.eqb (lower (default "" exclude_mode)) "hidden" in
      filter (λ c, Comment.is_hidden c = show_hidden) query
    else query in
  let query :=
    match expressions with
    | Some e => filter (λ c, e c = true) query
    | None => query
    end in
  query.

Definition comment_list (db : Database)
    (claim_id parent_id : option string) (top_level : bool)
    (exclude_mode : option string) (page page_size : Z)
    (expressions : option (Comment.t → bool))
    (select_fields exclude_fields : option (list string)) : outcome value :=
  let fields := selected_fields select_fields exclude_fields in
  let attributes := attributes_of fields in
  let columns := select attributes in
  let query := where_clauses claim_id parent_id top_level exclude_mode expressions (COMMENT db) in
  let total := Z.of_nat (length query) in
  let rows := paginate page page_size (order_by_timestamp_desc query) in
  let items := (λ c, VDict (clean (row_dict columns (left_outer_join (CHANNEL db) c)))) <$> rows in
  total_pages ← ceil_div total page_size;
  mret (VDict [ ("page", VInt page);
                ("page_size", VInt page_size);
                ("total_pages", VInt total_pages);
                ("total_items", VInt total);
                ("items", VList items);
                ("has_hidden_comments",
                  VBool (bool_decide (exclude_mode = Some "hidden"))) ]).

(** ** Derived read operations *)

(** [v[k]] and [v.get(k)] on a value expected to be a dict. *)
Definition value_item (k : string) (v : value) : outcome value :=
  match v with
  | VDict d => dict_item k d
  | _ => Raise TypeError
  end.

Definition value_get_default (k : string) (dflt : value) (v : value) : outcome value :=
  match v with
  | VDict d => Return (default dflt (dict_get k d))
  | _ => Raise AttributeError
  end.

Definition value_get (k : string) (v : value) : outcome value :=
  value_get_default k VNone v.

(** [for item in v] *)
Definition value_iter (v : value) : outcome (list value) :=
  match v with
  | VList l | VTuple l => Return l
  | VDict d => Return (VStr <$> dict_keys d)
  | _ => Raise TypeError
  end.

(** [v.pop()] on a list: its last element, [IndexError] when it is empty. *)
Definition list_pop (v : value) : outcome value :=
  match v with
  | VList l =>
      match last l with
      | Some x => Return x
      | None => Raise IndexError
      end
  | _ => Raise AttributeError
  end.

Definition get_comment (db : Database) (comment_id : string) : outcome value :=
  results ← comment_list db None None false None 1 1
              (Some (λ c, bool_decide (Comment.comment_id c = comment_id))) None None;
  items ← value_get "items" results;
  list_pop items.

Definition get_comment_ids (db : Database) (claim_id parent_id : option string)
    (page page_size : Z) (flattened : bool) : outcome value :=
  results ← comment_list db claim_id parent_id
              (bool_decide (parent_id = None)) None page page_size None
              (Some ["comment_id"; "parent_id"]) None;
  if flattened then
    items ← value_item "items" results ≫= value_iter;
    ids ← mapM (value_item "comment_id") items;
    replies ← mapM (λ item,
                 cid ← value_item "comment_id" item;
                 pid ← value_get "parent_id" item;
                 mret (VTuple [cid; pid])) items;
    match results with
    | VDict d => mret (VDict (dict_update [("items", VList ids); ("replies", VList replies)] d))
    | _ => Raise AttributeError
    end
  else mret results.

Definition get_comments_by_id (db : Database) (comment_ids : list string) : outcome value :=
  let expression := λ c, bool_decide (Comment.comment_id c ∈ comment_ids) in
  comment_list db None None false None 1 (Z.of_nat (length comment_ids))
    (Some expression) None None.

Definition get_channel_from_comment_id (db : Database) (comment_id : string) : outcome value :=
  results ← comment_list db None None false None 1 1
              (Some (λ c, bool_decide (Comment.comment_id c = comment_id)))
              (Some ["channel_name"; "channel_id"; "channel_url"]) None;
  value_item "items" results ≫= list_pop.

End ddl.

(** ** The queries on SQLite *)

(** [comment_list] hands two statements to the storage engine: the count
    of the matching rows and the select of the page.  Module [ddl] runs
    them on an engine without limits that breaks ties by merge sort.  This
    module runs the same operations with what SQLite and the [sqlite3]
    driver add: a statement binds a limited number of values, an integer
    bound to a statement is a signed 64-bit one, and the order of rows of
    equal timestamp is the engine's to choose. *)

Module sqlite.
Import ddl.

Class Engine := {
  (** SQLITE_LIMIT_VARIABLE_NUMBER *)
  max_variable_number : nat;
  (** ORDER BY Timestamp DESC on the matching rows (given in rowid order)
      of a statement with that select list, LIMIT and OFFSET *)
  order_rows : list string → Z → Z → list Comment.t → list Comment.t
}.

(** An expression passed as [expressions]: the rows it keeps, and the
    number of values it binds (one for a comparison with a value, one per
    element for [in_]). *)
Record expression := {
  holds : Comment.t → bool;
  variables : nat
}.

Definition OperationalError : exn := OtherException "OperationalError".
Definition OverflowError : exn := OtherException "OverflowError".

(** Preparing a statement fails with [OperationalError] (too many SQL
    variables) when it binds more values than the engine allows. *)
Definition prepare `{!Engine} (bound : nat) : outcome () :=
  if decide (bound ≤ max_variable_number)%nat then Return ()
  else Raise OperationalError.

Definition int64 (z : Z) : Prop := - 2 ^ 63 ≤ z < 2 ^ 63.

#[global] Instance int64_dec z : Decision (int64 z) :=
  and_dec (Z_le_dec (- 2 ^ 63) z) (Z_lt_dec z (2 ^ 63)).

(** Binding a Python int: [OverflowError] when it does not fit an SQLite
    INTEGER. *)
Definition bind_integer (z : Z) : outcome Z :=
  if decide (int64 z) then Return z else Raise OverflowError.

(** The values bound by the select list: peewee binds string literals, and
    only the expression of [channel_url] has any (['lbry://'] and ['#']). *)
Definition field_variables (field : string) : nat :=
  if decide (field = "channel_url") then 2%nat else 0%nat.

Definition select_variables (attributes : list (string * (joined → value))) : nat :=
  sum_list_with (λ attribute, field_variables attribute.1) attributes.

(** The values bound by the [where] clauses: the right-hand side of each
    clause that is added (the claim identifier, the parent identifier, the
    visibility flag, and for the null test its [None], the most peewee
    binds for it), and those of the extra expression. *)
Definition where_variables (claim_id parent_id : option string) (top_level : bool)
    (exclude_mode : option string) (expressions : option expression) : nat :=
  ((if truthy_str claim_id then (if top_level then 2 else 1) else 0) +
   (if truthy_str parent_id then 1 else 0) +
   (if truthy_str exclude_mode then 1 else 0) +
   from_option variables 0 expressions)%nat.

(** The values bound by the statement of the page: those of the select
    list and of the [where] clauses, then LIMIT and OFFSET. *)
Definition page_variables (claim_id parent_id : option string) (top_level : bool)
    (exclude_mode : option string) (expressions : option expression)
    (select_fields exclude_fields : option (list string)) : nat :=
  (select_variables (attributes_of (selected_fields select_fields exclude_fields)) +
   where_variables claim_id parent_id top_level exclude_mode expressions + 2)%nat.

(** The OFFSET that [.paginate(page, page_size)] sets. *)
Definition OFFSET (page page_size : Z) : Z :=
  (if decide (0 < page) then page - 1 else page) * page_size.

Definition comment_list `{!Engine} (db : Database)
    (claim_id parent_id : option string) (top_level : bool)
    (exclude_mode : option string) (page page_size : Z)
    (expressions : option expression)
    (select_fields exclude_fields : option (list string)) : outcome value :=
  let fields := selected_fields select_fields exclude_fields in
  let attributes := attributes_of fields in
  let columns := select attributes in
  let query :=
    where_clauses claim_id parent_id top_level exclude_mode (holds <$> expressions)
                  (COMMENT db) in
  (* total = query.count() *)
  _ ← prepare (where_variables claim_id parent_id top_level exclude_mode expressions);
  let total := Z.of_nat (length query) in
  (* the rows of query.dicts() *)
  _ ← prepare (page_variables claim_id parent_id top_level exclude_mode expressions
                              select_fields exclude_fields);
  limit ← bind_integer page_size;
  offset ← bind_integer (OFFSET page page_size);
  let rows := paginate page page_size (order_rows columns.*1 limit offset query) in
  let items := (λ c, VDict (clean (row_dict columns (left_outer_join (CHANNEL db) c)))) <$> rows in
  total_pages ← ceil_div total page_size;
  mret (VDict [ ("page", VInt page);
                ("page_size", VInt page_size);
                ("total_pages", VInt total_pages);
                ("total_items", VInt total);
                ("items", VList items);
                ("has_hidden_comments",
                  VBool (bool_decide (exclude_mode = Some "hidden"))) ]).

Definition get_comment `{!Engine} (db : Database) (comment_id : string) : outcome value :=
  let expression :=
    {| holds c := bool_decide (Comment.comment_id c = comment_id); variables := 1 |} in
  results ← comment_list db None None false None 1 1 (Some expression) None None;
  items ← value_get "items" results;
  list_pop items.

Definition get_comment_ids `{!Engine} (db : Database) (claim_id parent_id : option string)
    (page page_size : Z) (flattened : bool) : outcome value :=
  results ← comment_list db claim_id parent_id
              (bool_decide (parent_id = None)) None page page_size None
              (Some ["comment_id"; "parent_id"]) None;
  if flattened then
    items ← value_item "items" results ≫= value_iter;
    ids ← mapM (value_item "comment_id") items;
    replies ← mapM (λ item,
                 cid ← value_item "comment_id" item;
                 pid ← value_get "parent_id" item;
                 mret (VTuple [cid; pid])) items;
    match results with
    | VDict d => mret (VDict (dict_update [("items", VList ids); ("replies", VList replies)] d))
    | _ => Raise AttributeError
    end
  else mret results.

Definition get_comments_by_id `{!Engine} (db : Database) (comment_ids : list string)
  : outcome value :=
  let expression :=
    {| holds c := bool_decide (Comment.comment_id c ∈ comment_ids);
       variables := length comment_ids |} in
  comment_list db None None false None 1 (Z.of_nat (length comment_ids))
    (Some expression) None None.

Definition get_channel_from_comment_id `{!Engine} (db : Database) (comment_id : string)
  : outcome value :=
  let expression :=
    {| holds c := bool_decide (Comment.comment_id c = comment_id); variables := 1 |} in
  results ← comment_list db None None false None 1 1 (Some expression)
              (Some ["channel_name"; "channel_id"; "channel_url"]) None;
  value_item "items" results ≫= list_pop.

End sqlite.

(** ** The dispatcher ([src/handles.py]) *)

Module handles.
Import ddl.

(** A unit of work handed to [app['comment_scheduler'].spawn]. *)
Inductive job : Type :=
| WriteComment (comment : value)
| DeleteChannelComment (comment_id channel_id : value).

(** The application object: the database that [app['db_path']] and
    [app['writer']] both reach, and the jobs spawned on
    [app['comment_scheduler']] so far, oldest first. *)
Record App := {
  db : Database;
  spawned : list job
}.

(** The names [handles.py] imports from modules outside these sources
    ([misc], [src.database], [src.writes], [src.misc]).  The read functions
    take the connection and the unpacked parameters; the two write
    functions transform the database; the authenticity check reads the
    application and answers with a boolean, or raises. *)
Class Imports := {
  clean_input_params : value → outcome value;
  get_claim_comments : Database → dict → outcome value;
  get_comment_ids : Database → dict → outcome value;
  get_comments_by_id : Database → dict → outcome value;
  get_channel_from_comment_id : Database → dict → outcome value;
  create_comment_or_error : Database → dict → Database * outcome value;
  delete_channel_comment_by_id : Database → value → value → Database * outcome value;
  is_authentic_delete_signal : App → value → value → value → value → outcome bool
}.

Inductive error_key : Type :=
| PARSE_ERROR
| INVALID_REQUEST
| METHOD_NOT_FOUND
| INVALID_PARAMS
| INTERNAL.

(** Modelled from the spec: the table [ERRORS] of [misc] is not part of
    these sources.  The spec names its five entries as protocol error
    categories; an entry is represented by the name of its category. *)
Definition ERRORS (k : error_key) : value :=
  VStr match k with
       | PARSE_ERROR => "PARSE_ERROR"
       | INVALID_REQUEST => "INVALID_REQUEST"
       | METHOD_NOT_FOUND => "METHOD_NOT_FOUND"
       | INVALID_PARAMS => "INVALID_PARAMS"
       | INTERNAL => "INTERNAL"
       end.

Definition handler : Type := App → value → App * outcome value.

(** [f(conn, **kwargs)]: unpacking anything but a mapping is a [TypeError]. *)
Definition unpack (kwargs : value) : outcome dict :=
  match kwargs with
  | VDict kw => Return kw
  | _ => Raise TypeError
  end.

(** [f(app, **params)] for a function whose remaining parameters are
    exactly [names], none with a default: every key must be one of the
    names and every name must be given. *)
Definition bind_keywords (names : list string) (params : value) : outcome (list value) :=
  kw ← unpack params;
  if forallb (λ k, bool_decide (k ∈ names)) (dict_keys kw)
  then mapM (λ n, from_option Return (Raise TypeError) (dict_get n kw)) names
  else Raise TypeError.

Section dispatcher.
Context `{!Imports}.

Definition ping : handler := λ app _, (app, Return (VStr "pong")).

Definition handle_get_channel_from_comment_id : handler :=
  λ app kwargs, (app, unpack kwargs ≫= get_channel_from_comment_id (db app)).

Definition handle_get_comment_ids : handler :=
  λ app kwargs, (app, unpack kwargs ≫= get_comment_ids (db app)).

Definition handle_get_claim_comments : handler :=
  λ app kwargs, (app, unpack kwargs ≫= get_claim_comments (db app)).

Definition handle_get_comments_by_id : handler :=
  λ app kwargs, (app, unpack kwargs ≫= get_comments_by_id (db app)).

(** What a spawned job does to the database once the scheduler runs it. *)
Definition run_job (j : job) (d : Database) : Database * outcome value :=
  match j with
  | WriteComment comment =>
      match unpack comment with
      | Return kw => create_comment_or_error d kw
      | Raise e => (d, Raise e)
      end
  | DeleteChannelComment comment_id channel_id =>
      delete_channel_comment_by_id d comment_id channel_id
  end.

(** [job = await scheduler.spawn(work)] followed by [await job.wait()]. *)
Definition spawn_and_wait (j : job) (app : App) : App * outcome value :=
  let '(d, r) := run_job j (db app) in
  ({| db := d; spawned := spawned app ++ [j] |}, r).

Definition handle_create_comment : handler :=
  λ app params, spawn_and_wait (WriteComment params) app.

Definition delete_comment_if_authorized (app : App)
    (comment_id channel_name channel_id signature : value) : App * outcome value :=
  match is_authentic_delete_signal app comment_id channel_name channel_id signature with
  | Raise e => (app, Raise e)
  | Return authorized =>
      if negb authorized then (app, Return (VDict [("deleted", VBool false)]))
      else
        let '(app, r) := spawn_and_wait (DeleteChannelComment comment_id channel_id) app in
        (app, deleted ← r; mret (VDict [("deleted", deleted)]))
  end.

Definition handle_delete_comment : handler :=
  λ app params,
    match bind_keywords ["comment_id"; "channel_name"; "channel_id"; "signature"] params with
    | Return [comment_id; channel_name; channel_id; signature] =>
        delete_comment_if_authorized app comment_id channel_name channel_id signature
    | Return _ => (app, Raise TypeError)
    | Raise e => (app, Raise e)
    end.

Definition METHODS : list (string * handler) :=
  [ ("ping", ping);
    ("get_claim_comments", handle_get_claim_comments);
    ("get_comment_ids", handle_get_comment_ids);
    ("get_comments_by_id", handle_get_comments_by_id);
    ("get_channel_from_comment_id", handle_get_channel_from_comment_id);
    ("create_comment", handle_create_comment);
    ("delete_comment", handle_delete_comment) ].

(** [method in METHODS] followed by [METHODS[method]]: the membership test
    hashes its operand, which a list or a dict does not allow; a hashable
    value that is not a string equals no key. *)
Definition lookup_method (method : value) : outcome (option handler) :=
  match method with
  | VStr m => Return (registry_get m METHODS)
  | VList _ | VDict _ => Raise TypeError
  | _ => Return None
  end.

(** The [except] clauses of [process_json], first match wins. *)
Definition classify (e : exn) : error_key :=
  if isinstance_TypeError e then INVALID_PARAMS
  else if isinstance_ValueError e then INVALID_PARAMS
  else INTERNAL.

Definition process_json (app : App) (body : value) : App * outcome value :=
  match value_item "id" body with
  | Raise e => (app, Raise e)
  | Return id =>
      let response := [("jsonrpc", VStr "2.0"); ("id", id)] in
      match value_item "method" body ≫= lookup_method with
      | Raise e => (app, Raise e)
      | Return None =>
          (app, Return (VDict (dict_set "error" (ERRORS METHOD_NOT_FOUND) response)))
      | Return (Some method) =>
          match value_get_default "params" (VDict []) body with
          | Raise e => (app, Raise e)
          | Return params =>
              match clean_input_params params with
              | Raise e => (app, Raise e)
              | Return params =>
                  let '(app, r) := method app params in
                  (app, Return (VDict
                     match r with
                     | Return result => dict_set "result" result response
                     | Raise e => dict_set "error" (ERRORS (classify e)) response
                     end))
              end
          end
      end
  end.

(** [[await process_json(request.app, part) for part in body]]: the parts
    are processed one after the other; the first exception that escapes
    ends the comprehension. *)
Fixpoint process_batch (app : App) (parts : list value) : App * outcome (list value) :=
  match parts with
  | [] => (app, Return [])
  | part :: parts =>
      match process_json app part with
      | (app, Raise e) => (app, Raise e)
      | (app, Return response) =>
          match process_batch app parts with
          | (app, Raise e) => (app, Raise e)
          | (app, Return responses) => (app, Return (response :: responses))
          end
      end
  end.

(** [api_endpoint], given what [await request.json()] produced; the result
    is the payload handed to [web.json_response]. *)
Definition api_endpoint (app : App) (request_json : outcome value) : App * value :=
  let '(app, r) :=
    match request_json with
    | Raise e => (app, Raise e)
    | Return body =>
        match body with
        | VList parts =>
            let '(app, r) := process_batch app parts in (app, VList <$> r)
        | VDict _ => process_json app body
        | _ => (app, Return (VDict [("error", ERRORS INVALID_REQUEST)]))
        end
    end in
  (app,
   match r with
   | Return response => response
   | Raise e =>
       if isinstance_JSONDecodeError e
       then VDict [("error", ERRORS PARSE_ERROR)]
       else VDict [("error", ERRORS INVALID_REQUEST)]
   end).

End dispatcher.
End handles.

(** * Vocabulary of the statements *)

Import ddl.

(** ** The engine *)

(** The rows matched by the filters of a call. *)
Definition matched (db : Database) (claim_id parent_id : option string) (top_level : bool)
    (exclude_mode : option string) (expressions : option (Comment.t → bool))
  : list Comment.t :=
  where_clauses claim_id parent_id top_level exclude_mode expressions (COMMENT db).

(** The rows of the requested page. *)
Definition page_rows (db : Database) (claim_id parent_id : option string) (top_level : bool)
    (exclude_mode : option string) (page page_size : Z)
    (expressions : option (Comment.t → bool)) : list Comment.t :=
  paginate page page_size
    (order_by_timestamp_desc (matched db claim_id parent_id top_level exclude_mode expressions)).

(** The item built for one comment row of the page. *)
Definition item_of (db : Database) (select_fields exclude_fields : option (list string))
    (c : Comment.t) : value :=
  VDict (clean (row_dict (select (attributes_of (selected_fields select_fields exclude_fields)))
                         (left_outer_join (CHANNEL db) c))).

(** The value stored for logical field [k] of comment [c]: the registry
    expression of [k], evaluated on the row joined with its channel. *)
Definition stored_value (db : Database) (c : Comment.t) (k : string) : option value :=
  (λ expression, expression (left_outer_join (CHANNEL db) c)) <$> registry_get k FIELDS.

(** The projection in the words of the specification: registry keys, minus
    the excluded ones, intersected with the included ones. *)
Definition spec_projected (select_fields exclude_fields : option (list string))
    (k : string) : Prop :=
  k ∈ FIELDS.*1 ∧
  (∀ l, exclude_fields = Some l → k ∉ l) ∧
  (∀ l, select_fields = Some l → k ∈ l).

(** The projection the code computes: an empty inclusion list counts as no
    inclusion list. *)
Definition projected (select_fields exclude_fields : option (list string))
    (k : string) : Prop :=
  k ∈ FIELDS.*1 ∧
  (∀ l, exclude_fields = Some l → k ∉ l) ∧
  (∀ l, select_fields = Some l → l ≠ [] → k ∈ l).

(** The engine honours ORDER BY: whatever the statement, it arranges the
    matching rows newest first, losing and adding none.  Nothing is said
    of the order of rows with equal timestamps. *)
Definition orders_newest_first `{!sqlite.Engine} : Prop :=
  ∀ columns limit offset rows,
    sqlite.order_rows columns limit offset rows ≡ₚ rows ∧
    StronglySorted newer_first (sqlite.order_rows columns limit offset rows).

(** ** The dispatcher *)

Import handles.

(** A request envelope with identifier [id]: an object with an [id] and
    the name of a method. *)
Definition request_envelope (v id : value) : Prop :=
  ∃ d m, v = VDict d ∧ dict_get "id" d = Some id ∧ dict_get "method" d = Some (VStr m).

(** The parameters of the request pass the normalization step. *)
Definition normalizable `{!Imports} (v : value) : Prop :=
  ∃ params, value_get_default "params" (VDict []) v ≫= clean_input_params = Return params.

(** A response envelope for identifier [id]: the protocol version, the
    identifier, and either a result or an error. *)
Definition response_envelope (v id : value) : Prop :=
  ∃ outcome_key outcome_value,
    v = VDict [("jsonrpc", VStr "2.0"); ("id", id); (outcome_key, outcome_value)] ∧
    (outcome_key = "result" ∨ outcome_key = "error").

(** Anything but an object with an [id] key. *)
Definition lacks_id (v : value) : Prop :=
  match v with
  | VDict d => dict_get "id" d = None
  | _ => True
  end.

(** ** Sample data *)

Definition sample_c1 : Comment.t :=
  Comment.mk "first" None "c1" false "k1" None None None 100.

Definition sample_c2 : Comment.t :=
  Comment.mk "second" (Some "ch1") "c2" false "k1" (Some "c1") None None 200.

Definition sample_db : Database :=
  {| COMMENT := [sample_c1; sample_c2]; CHANNEL := {[ "ch1" := "@bob" ]} |}.

(** An engine for the samples: the variable limit of SQLite's default build
    before version 3.32, and an insertion sort that keeps rows of equal
    timestamp in rowid order. *)
Fixpoint insert_row (c : Comment.t) (sorted : list Comment.t) : list Comment.t :=
  match sorted with
  | [] => [c]
  | c' :: rest =>
      if decide (newer_first c c') then c :: sorted else c' :: insert_row c rest
  end.

Definition rowid_order (rows : list Comment.t) : list Comment.t :=
  foldr insert_row [] rows.

Definition sample_engine : sqlite.Engine := {|
  sqlite.max_variable_number := 999;
  sqlite.order_rows _ _ _ := rowid_order
|}.

Definition as_str (v : value) : outcome string :=
  match v with
  | VStr s => Return s
  | _ => Raise TypeError
  end.

Definition required (k : string) (kw : dict) : outcome value :=
  from_option Return (Raise TypeError) (dict_get k kw).

Definition is_row (comment_id channel_id : value) (c : Comment.t) : bool :=
  match comment_id, channel_id with
  | VStr i, VStr ch =>
      bool_decide (Comment.comment_id c = i ∧ Comment.channel c = Some ch)
  | _, _ => false
  end.

(** An instance of the imports, used to run the dispatcher on concrete
    requests: parameters must be an object and are left as they are, the
    read functions are those of the peewee layer, a delete removes the
    comment of that identifier and channel, and a delete signal is
    authentic when its signature is the string ['valid']. *)
Definition sample_imports : Imports := {|
  clean_input_params params :=
    match params with
    | VDict _ => Return params
    | _ => Raise AttributeError
    end;
  get_claim_comments d kw :=
    claim_id ← required "claim_id" kw ≫= as_str;
    comment_list d (Some claim_id) None false None 1 50 None None None;
  get_comment_ids d kw :=
    claim_id ← required "claim_id" kw ≫= as_str;
    ddl.get_comment_ids d (Some claim_id) None 1 50 false;
  get_comments_by_id d kw :=
    comment_ids ← required "comment_ids" kw ≫= value_iter;
    comment_ids ← mapM as_str comment_ids;
    ddl.get_comments_by_id d comment_ids;
  get_channel_from_comment_id d kw :=
    comment_id ← required "comment_id" kw ≫= as_str;
    ddl.get_channel_from_comment_id d comment_id;
  create_comment_or_error d kw := (d, Raise (OtherException "NotImplementedError"));
  delete_channel_comment_by_id d comment_id channel_id :=
    ({| COMMENT := filter (λ c, is_row comment_id channel_id c = false) (COMMENT d);
        CHANNEL := CHANNEL d |},
     Return (VBool (existsb (is_row comment_id channel_id) (COMMENT d))));
  is_authentic_delete_signal app comment_id channel_name channel_id signature :=
    match signature with
    | VStr s => Return (String.eqb s "valid")
    | _ => Return false
    end
|}.

Definition sample_app : App := {| db := sample_db; spawned := [] |}.

Definition sample_batch : list value :=
  [ VDict [("id", VInt 1); ("method", VStr "ping")];
    VDict [("id", VStr "b"); ("method", VStr "no_such_method"); ("params", VDict [])];
    VDict [("id", VInt 3); ("method", VStr "get_comment_ids");
           ("params", VDict [("claim_id", VStr "k1")])];
    VDict [("id", VInt 4); ("method", VStr "get_comments_by_id");
           ("params", VDict [("comment_ids", VList [])])] ].

(** Two request envelopes, the second with [params] null. *)
Definition sample_null_params : value :=
  VDict [("id", VInt 2); ("method", VStr "ping"); ("params", VNone)].

Definition sample_null_params_batch : list value :=
  [ VDict [("id", VInt 1); ("method", VStr "ping")]; sample_null_params ].

Definition sample_lookup : dict :=
  [ ("id", VInt 7);
    ("method", VStr "get_channel_from_comment_id");
    ("params", VDict [("comment_id", VStr "c0")]) ].

Definition sample_delete (signature : string) : dict :=
  [ ("id", VInt 9);
    ("method", VStr "delete_comment");
    ("params", VDict [ ("signature", VStr signature);
                       ("comment_id", VStr "c2");
                       ("channel_id", VStr "ch1");
                       ("channel_name", VStr "@bob") ]) ].

(** * Properties *)

(** ** Auxiliary facts about the engine *)

Lemma comment_list_eq db claim_id parent_id top_level exclude_mode page page_size
    expressions select_fields exclude_fields :
  comment_list db claim_id parent_id top_level exclude_mode page page_size
               expressions select_fields exclude_fields =
  if decide (page_size = 0) then Raise ZeroDivisionError
  else
    let matched := matched db claim_id parent_id top_level exclude_mode expressions in
    Return (VDict [ ("page", VInt page);
                    ("page_size", VInt page_size);
                    ("total_pages", VInt (- ((- Z.of_nat (length matched)) `div` page_size)));
                    ("total_items", VInt (Z.of_nat (length matched)));
                    ("items",
                      VList (item_of db select_fields exclude_fields <$>
                               page_rows db claim_id parent_id top_level exclude_mode
                                         page page_size expressions));
                    ("has_hidden_comments",
                      VBool (bool_decide (exclude_mode = Some "hidden"))) ]).
Proof.
  unfold comment_list, ceil_div, matched, page_rows, item_of.
  destruct (decide (page_size = 0)); reflexivity.
Qed.

Lemma length_order_by_timestamp_desc rows :
  length (order_by_timestamp_desc rows) = length rows.
Proof.
  unfold order_by_timestamp_desc.
  apply Permutation_length, merge_sort_Permutation.
Qed.

(** For a positive divisor the quotient computed by [ceil_div] is the
    least number of pages of that size which hold [total] rows. *)
Lemma ceil_div_spec total page_size :
  0 < page_size →
  let q := - ((- total) `div` page_size) in
  (q - 1) * page_size < total ≤ q * page_size.
Proof.
  intros Hps q. subst q.
  pose proof (Z.mul_div_le (- total) page_size Hps).
  pose proof (Z.mul_succ_div_gt (- total) page_size Hps).
  nia.
Qed.

Lemma paginate_in_range {A} (page page_size : Z) (rows : list A) :
  1 ≤ page → 0 ≤ page_size →
  paginate page page_size rows =
  take (Z.to_nat page_size) (drop (Z.to_nat ((page - 1) * page_size)) rows).
Proof.
  intros Hp Hps. unfold paginate.
  destruct (decide (0 < page)); [|lia].
  destruct (decide (page_size < 0)); [lia|done].
Qed.

Lemma paginate_beyond {A} (page page_size : Z) (rows : list A) :
  0 < page_size → Z.of_nat (length rows) ≤ (page - 1) * page_size → 1 ≤ page →
  paginate page page_size rows = [].
Proof.
  intros Hps Hlen Hp. rewrite paginate_in_range by lia.
  rewrite drop_ge; [by rewrite take_nil|lia].
Qed.


(** ** Auxiliary facts about the queries on SQLite *)

Lemma insert_row_Permutation c sorted : insert_row c sorted ≡ₚ c :: sorted.
Proof.
  induction sorted as [|c' rest IH]; simpl; [done|].
  destruct (decide (newer_first c c')); [done|].
  rewrite IH. apply Permutation_swap.
Qed.

Lemma insert_row_sorted c sorted :
  StronglySorted newer_first sorted → StronglySorted newer_first (insert_row c sorted).
Proof.
  induction 1 as [|c' rest Hrest IH Hc']; simpl; [repeat constructor|].
  destruct (decide (newer_first c c')) as [Hc|Hc].
  - constructor; [by constructor|].
    constructor; [exact Hc|].
    eapply Forall_impl; [exact Hc'|]. unfold newer_first in *. intros; lia.
  - constructor; [exact IH|].
    rewrite insert_row_Permutation. constructor; [|exact Hc'].
    unfold newer_first in *. lia.
Qed.

Lemma rowid_order_Permutation rows : rowid_order rows ≡ₚ rows.
Proof.
  induction rows as [|c rows IH]; simpl; [done|].
  by rewrite insert_row_Permutation, IH.
Qed.

Lemma rowid_order_sorted rows : StronglySorted newer_first (rowid_order rows).
Proof.
  induction rows as [|c rows IH]; simpl; [constructor|by apply insert_row_sorted].
Qed.

Lemma sample_engine_orders : orders_newest_first (H := sample_engine).
Proof.
  intros columns limit offset rows. split.
  - apply rowid_order_Permutation.
  - apply rowid_order_sorted.
Qed.

Section sqlite_facts.
Context `{!sqlite.Engine}.

(** [sqlite.comment_list] by cases: the three ways it can fail, and the
    envelope it returns otherwise. *)
Lemma sqlite_comment_list_eq db claim_id parent_id top_level exclude_mode page page_size
    expressions select_fields exclude_fields :
  sqlite.comment_list db claim_id parent_id top_level exclude_mode page page_size
                      expressions select_fields exclude_fields =
  if decide (sqlite.page_variables claim_id parent_id top_level exclude_mode expressions
                                   select_fields exclude_fields
             ≤ sqlite.max_variable_number)%nat then
    if decide (sqlite.int64 page_size ∧ sqlite.int64 (sqlite.OFFSET page page_size)) then
      if decide (page_size = 0) then Raise ZeroDivisionError
      else
        let matched :=
          matched db claim_id parent_id top_level exclude_mode (sqlite.holds <$> expressions) in
        let columns := select (attributes_of (selected_fields select_fields exclude_fields)) in
        Return (VDict [ ("page", VInt page);
                        ("page_size", VInt page_size);
                        ("total_pages", VInt (- ((- Z.of_nat (length matched)) `div` page_size)));
                        ("total_items", VInt (Z.of_nat (length matched)));
                        ("items",
                          VList (item_of db select_fields exclude_fields <$>
                                   paginate page page_size
                                     (sqlite.order_rows columns.*1 page_size
                                        (sqlite.OFFSET page page_size) matched)));
                        ("has_hidden_comments",
                          VBool (bool_decide (exclude_mode = Some "hidden"))) ])
    else Raise sqlite.OverflowError
  else Raise sqlite.OperationalError.
Proof.
  unfold sqlite.comment_list, sqlite.prepare, sqlite.bind_integer, ceil_div,
    matched, item_of.
  assert (sqlite.where_variables claim_id parent_id top_level exclude_mode expressions
          ≤ sqlite.page_variables claim_id parent_id top_level exclude_mode expressions
                                  select_fields exclude_fields)%nat as Hle
    by (unfold sqlite.page_variables; lia).
  destruct (decide (sqlite.page_variables _ _ _ _ _ _ _ ≤ _)%nat).
  - destruct (decide (sqlite.where_variables _ _ _ _ _ ≤ _)%nat); [|lia].
    destruct (decide (sqlite.int64 page_size ∧ _)) as [[Hlimit Hoffset]|Hrange].
    + rewrite (decide_True (P := sqlite.int64 page_size)) by done.
      rewrite (decide_True (P := sqlite.int64 (sqlite.OFFSET page page_size))) by done.
      destruct (decide (page_size = 0)); reflexivity.
    + destruct (decide (sqlite.int64 page_size)); [|reflexivity].
      rewrite (decide_False (P := sqlite.int64 (sqlite.OFFSET page page_size))) by tauto.
      reflexivity.
  - destruct (decide (sqlite.where_variables _ _ _ _ _ ≤ _)%nat); reflexivity.
Qed.

Lemma int64_page_size_zero page : sqlite.int64 0 ∧ sqlite.int64 (sqlite.OFFSET page 0).
Proof. unfold sqlite.OFFSET, sqlite.int64. split; lia. Qed.

Lemma order_rows_length columns limit offset rows :
  orders_newest_first →
  length (sqlite.order_rows columns limit offset rows) = length rows.
Proof. intros Horder. apply Permutation_length, Horder. Qed.

End sqlite_facts.

(** A request for more identifiers than the sample engine has variables is
    refused. *)
Example too_many_identifiers :
  sqlite.get_comments_by_id (H := sample_engine) sample_db (replicate 995 "c1") =
    Return (VDict [ ("page", VInt 1);
                    ("page_size", VInt 995);
                    ("total_pages", VInt 1);
                    ("total_items", VInt 1);
                    ("items", VList [item_of sample_db None None sample_c1]);
                    ("has_hidden_comments", VBool false) ]) ∧
  sqlite.get_comments_by_id (H := sample_engine) sample_db (replicate 996 "c1") =
    Raise sqlite.OperationalError.
Proof. split; vm_compute; reflexivity. Qed.

(** On an engine that breaks ties by merge sort, and within its limits,
    the operation is the one of module [ddl]. *)
Lemma sqlite_comment_list_ddl `{!sqlite.Engine} db claim_id parent_id top_level exclude_mode
    page page_size expressions select_fields exclude_fields :
  (∀ columns limit offset rows,
     sqlite.order_rows columns limit offset rows = order_by_timestamp_desc rows) →
  (sqlite.page_variables claim_id parent_id top_level exclude_mode expressions
                         select_fields exclude_fields ≤ sqlite.max_variable_number)%nat →
  sqlite.int64 page_size →
  sqlite.int64 (sqlite.OFFSET page page_size) →
  sqlite.comment_list db claim_id parent_id top_level exclude_mode page page_size
                      expressions select_fields exclude_fields =
  comment_list db claim_id parent_id top_level exclude_mode page page_size
               (sqlite.holds <$> expressions) select_fields exclude_fields.
Proof.
  intros Horder Hvariables Hlimit Hoffset.
  rewrite sqlite_comment_list_eq, comment_list_eq.
  rewrite decide_True by done. rewrite decide_True by done.
  destruct (decide (page_size = 0)); [reflexivity|].
  cbv zeta. unfold page_rows. by rewrite Horder.
Qed.

(** ** Pagination arithmetic *)

(** C2, as the code has it.  Take an engine that honours ORDER BY, a
    positive page size and a statement within the engine's variable limit.
    When LIMIT ([page_size]) and
    OFFSET fit a signed 64-bit integer, [comment_list] returns an envelope
    whose [total_items] is the number of matching rows and whose
    [total_pages] is the ceiling of [total_items / page_size]; pages are
    numbered from 1, page [p] holding the rows from offset
    [(p - 1) * page_size] of the matching rows arranged newest first (rows
    of equal timestamp in an order of the engine's choosing); a page beyond
    [total_pages] comes back with no items, and nothing is raised.  When
    LIMIT or OFFSET does not fit, the call raises [OverflowError]. *)
Theorem C2_pagination_arithmetic `{!sqlite.Engine} db claim_id parent_id top_level
    exclude_mode page page_size expressions select_fields exclude_fields :
  orders_newest_first →
  0 < page_size →
  (sqlite.page_variables claim_id parent_id top_level exclude_mode expressions
                         select_fields exclude_fields ≤ sqlite.max_variable_number)%nat →
  let matching :=
    where_clauses claim_id parent_id top_level exclude_mode (sqlite.holds <$> expressions)
                  (COMMENT db) in
  (sqlite.int64 page_size → sqlite.int64 (sqlite.OFFSET page page_size) →
   ∃ total_pages total_items items sorted,
     sqlite.comment_list db claim_id parent_id top_level exclude_mode page page_size
                         expressions select_fields exclude_fields =
     Return (VDict [ ("page", VInt page);
                     ("page_size", VInt page_size);
                     ("total_pages", VInt total_pages);
                     ("total_items", VInt total_items);
                     ("items", VList items);
                     ("has_hidden_comments",
                       VBool (bool_decide (exclude_mode = Some "hidden"))) ]) ∧
     total_items = Z.of_nat (length matching) ∧
     (total_pages - 1) * page_size < total_items ≤ total_pages * page_size ∧
     sorted ≡ₚ matching ∧
     StronglySorted newer_first sorted ∧
     (1 ≤ page →
        items =
        item_of db select_fields exclude_fields <$>
          take (Z.to_nat page_size) (drop (Z.to_nat ((page - 1) * page_size)) sorted)) ∧
     (total_pages < page → items = [])) ∧
  (¬ (sqlite.int64 page_size ∧ sqlite.int64 (sqlite.OFFSET page page_size)) →
   sqlite.comment_list db claim_id parent_id top_level exclude_mode page page_size
                       expressions select_fields exclude_fields =
   Raise sqlite.OverflowError).
Proof.
  intros Horder Hps Hvariables matching. rewrite sqlite_comment_list_eq.
  rewrite decide_True by done. split.
  - intros Hlimit Hoffset. rewrite decide_True by done.
    destruct (decide (page_size = 0)) as [->|_]; [lia|]. cbv zeta.
    eexists _, _, _, _. split; [reflexivity|].
    pose proof (ceil_div_spec (Z.of_nat (length matching)) page_size Hps) as Hceil.
    simpl in Hceil.
    split; [reflexivity|]. split; [exact Hceil|].
    split; [apply Horder|]. split; [apply Horder|]. split.
    + intros Hp. by rewrite paginate_in_range by lia.
    + change (matched db claim_id parent_id top_level exclude_mode
                (sqlite.holds <$> expressions)) with matching.
      intros Hbeyond. rewrite paginate_beyond; [done|lia| |nia].
      rewrite order_rows_length by done. nia.
  - intros Hrange. by rewrite decide_False.
Qed.

Lemma C2_pagination_arithmetic_witness :
  ∃ total_pages total_items items,
    sqlite.comment_list (H := sample_engine) sample_db None None false None 2 1 None
                        (Some ["comment_id"]) None =
    Return (VDict [ ("page", VInt 2);
                    ("page_size", VInt 1);
                    ("total_pages", VInt total_pages);
                    ("total_items", VInt total_items);
                    ("items", VList items);
                    ("has_hidden_comments", VBool false) ]) ∧
    total_items = 2 ∧ total_pages = 2 ∧
    items = [VDict [("comment_id", VStr "c1")]].
Proof.
  destruct (C2_pagination_arithmetic (H := sample_engine) sample_db None None false None
              2 1 None (Some ["comment_id"]) None sample_engine_orders ltac:(lia))
    as [Hin _]; [vm_compute; lia|].
  destruct Hin as (tp & ti & items & sorted & Heq & Hti & Htp & _ & _ & _ & _);
    [vm_compute; split; [discriminate|reflexivity]..|].
  assert (ti = 2) as Hti2 by (rewrite Hti; reflexivity).
  exists tp, ti, items. split; [exact Heq|].
  split; [exact Hti2|]. split; [lia|].
  vm_compute in Heq. by injection Heq as _ _ <-.
Defined.

(** Page [2 ^ 62] of fifty lies beyond the single page of the sample
    store, and asking for it raises: its OFFSET does not fit a signed
    64-bit integer. *)
Lemma C2_counterexample :
  (∃ envelope,
     sqlite.comment_list (H := sample_engine) sample_db None None false None 1 50
                         None None None = Return envelope ∧
     value_item "total_pages" envelope = Return (VInt 1)) ∧
  1 < 2 ^ 62 ∧
  sqlite.comment_list (H := sample_engine) sample_db None None false None (2 ^ 62) 50
                      None None None =
  Raise sqlite.OverflowError.
Proof.
  split; [|split].
  - eexists. split; vm_compute; reflexivity.
  - reflexivity.
  - vm_compute. reflexivity.
Qed.

(** ** The deprecated [has_hidden_comments] key *)


(** ** Field projection *)

Lemma falsy_list_default {A} (o : option (list A)) :
  truthy_list o = false → default [] o = [].
Proof. by destruct o as [[|??]|]. Qed.

Lemma excluded_iff (exclude_fields : option (list string)) k :
  (∀ l, exclude_fields = Some l → k ∉ l) ↔ k ∉ default [] exclude_fields.
Proof.
  destruct exclude_fields as [l|]; simpl.
  - split; [by intros H; apply H|by intros H l' [= <-]].
  - split; [intros _; apply not_elem_of_nil|by intros _ l' [=]].
Qed.

Lemma included_iff (select_fields : option (list string)) k :
  (∀ l, select_fields = Some l → l ≠ [] → k ∈ l) ↔
  (truthy_list select_fields = true → k ∈ default [] select_fields).
Proof.
  destruct select_fields as [[|s l]|]; simpl.
  - split; [by intros _ [=]|by intros _ l' [= <-]].
  - split; [by intros H _; apply H|by intros H l' [= <-] _; apply H].
  - split; [by intros _ [=]|by intros _ l' [=]].
Qed.

Lemma elem_of_selected_fields select_fields exclude_fields k :
  k ∈ selected_fields select_fields exclude_fields ↔
  projected select_fields exclude_fields k.
Proof.
  unfold selected_fields, projected.
  rewrite excluded_iff, included_iff.
  destruct (truthy_list exclude_fields) eqn:He, (truthy_list select_fields) eqn:Hs;
    rewrite ?elem_of_intersection, ?elem_of_difference, !elem_of_list_to_set;
    rewrite ?(falsy_list_default exclude_fields) by done.
  all: pose proof (not_elem_of_nil k); intuition congruence.
Qed.

Lemma registry_get_is_Some {A} k (reg : list (string * A)) :
  is_Some (registry_get k reg) ↔ k ∈ reg.*1.
Proof.
  induction reg as [|[k' a] reg IH]; simpl.
  - split; [by intros [? ?]|by intros ?%elem_of_nil].
  - rewrite elem_of_cons. destruct (decide (k = k')) as [->|Hne].
    + split; [by left|by eexists].
    + rewrite IH. split; [by right|by intros [?|?]].
Qed.

Lemma elem_of_attributes_of fields k expression :
  (k, expression) ∈ attributes_of fields ↔
  k ∈ fields ∧ registry_get k FIELDS = Some expression.
Proof.
  unfold attributes_of. rewrite list_elem_of_omap. split.
  - intros (field & Hin%elem_of_elements & Hget).
    destruct (registry_get field FIELDS) as [e|] eqn:He; simplify_eq/=. done.
  - intros [Hin Hget]. exists k. rewrite elem_of_elements, Hget. done.
Qed.

Lemma omap_registry_keys {A} (reg : list (string * A)) (l : list string) :
  (omap (λ field, (field,.) <$> registry_get field reg) l).*1 =
  filter (λ k, is_Some (registry_get k reg)) l.
Proof.
  induction l as [|k l IH]; [done|].
  rewrite filter_cons.
  destruct (decide (is_Some (registry_get k reg))) as [[e He]|Hnone]; simpl.
  - rewrite He. simpl. f_equal. exact IH.
  - destruct (registry_get k reg) as [e|]; [by destruct Hnone|exact IH].
Qed.

Lemma NoDup_attributes_of fields : NoDup (attributes_of fields).*1.
Proof.
  unfold attributes_of. rewrite omap_registry_keys.
  apply NoDup_filter, NoDup_elements.
Qed.

Lemma clean_cons k v thing :
  clean ((k, v) :: thing) = if is_None v then clean thing else (k, v) :: clean thing.
Proof.
  unfold clean. rewrite filter_cons. simpl.
  by destruct (is_None v).
Qed.

(** A key of a cleaned row holds the value of the column selected under
    that name, and holds it only when that value is not [None]. *)
Lemma dict_get_clean_row_dict columns r k v :
  NoDup columns.*1 →
  dict_get k (clean (row_dict columns r)) = Some v ↔
  ∃ expression, (k, expression) ∈ columns ∧ v = expression r ∧ v ≠ VNone.
Proof.
  induction columns as [|[k0 e0] columns IH]; intros Hnd.
  - split; [done|]. by intros (? & ?%elem_of_nil & _).
  - rewrite fmap_cons in Hnd. apply NoDup_cons in Hnd as [Hk0 Hnd].
    specialize (IH Hnd).
    unfold row_dict in *. rewrite fmap_cons, clean_cons.
    cbn [fst snd dict_get].
    assert (∀ e, (k0, e) ∉ columns) as Hfresh.
    { intros e He. apply Hk0. apply list_elem_of_fmap. by exists (k0, e). }
    destruct (is_None (e0 r)) eqn:Hnone.
    + rewrite IH. split.
      * intros (e & He & -> & Hv). exists e. by rewrite elem_of_cons; auto.
      * intros (e & [[= -> ->]|He]%elem_of_cons & -> & Hv).
        -- by destruct (e0 r).
        -- by exists e.
    + simpl. destruct (decide (k = k0)) as [->|Hne].
      * split.
        -- intros [= <-]. exists e0. split_and!; [by left|done|].
           by intros Heq; rewrite Heq in Hnone.
        -- intros (e & [[= ->]|He]%elem_of_cons & -> & Hv); [done|].
           by destruct (Hfresh e).
      * rewrite IH. split.
        -- intros (e & He & -> & Hv). exists e. by rewrite elem_of_cons; auto.
        -- intros (e & [[= -> ->]|He]%elem_of_cons & -> & Hv); [done|].
           by exists e.
Qed.




Lemma select_nonempty (x : string * (joined → value)) attributes :
  x ∈ attributes → select attributes = attributes.
Proof. by destruct attributes; [intros ?%elem_of_nil|]. Qed.




(** A key survives the specification's projection only if it survives the
    code's; the two differ on an empty inclusion list alone. *)
Lemma spec_projected_projected select_fields exclude_fields k :
  spec_projected select_fields exclude_fields k →
  projected select_fields exclude_fields k.
Proof. intros (? & ? & Hs). split_and!; [done..|]. intros l Hl _. by apply Hs. Qed.

Lemma projected_spec_projected select_fields exclude_fields k :
  select_fields ≠ Some [] →
  projected select_fields exclude_fields k →
  spec_projected select_fields exclude_fields k.
Proof.
  intros Hne (? & ? & Hs). split_and!; [done..|].
  intros l Hl. apply Hs; [done|]. by intros ->.
Qed.

(** When no key survives, [select] is called without any expression and
    the items carry the columns of the model instead. *)
Example projection_of_nothing :
  comment_list sample_db None None false None 1 1 None (Some ["no_such_field"]) None =
  Return (VDict [ ("page", VInt 1);
                  ("page_size", VInt 1);
                  ("total_pages", VInt 2);
                  ("total_items", VInt 2);
                  ("items",
                    VList [VDict [ ("comment_id", VStr "c2");
                                   ("comment", VStr "second");
                                   ("channel", VStr "ch1");
                                   ("is_hidden", VBool false);
                                   ("claim_id", VStr "k1");
                                   ("parent", VStr "c1");
                                   ("timestamp", VInt 200) ]]);
                  ("has_hidden_comments", VBool false) ]).
Proof. vm_compute. reflexivity. Qed.

(** ** The parent filter *)

Lemma filter_comm {A} (P Q : A → Prop) `{!∀ x, Decision (P x), !∀ x, Decision (Q x)}
    (l : list A) :
  filter P (filter Q l) = filter Q (filter P l).
Proof. rewrite !list_filter_filter. apply list_filter_iff. tauto. Qed.

Lemma truthy_str_Some s : s ≠ "" → truthy_str (Some s) = true.
Proof. intros Hs. simpl. by destruct (String.eqb_spec s ""). Qed.

Lemma where_clauses_parent claim_id p top_level exclude_mode expressions query :
  p ≠ "" →
  where_clauses claim_id (Some p) top_level exclude_mode expressions query =
  filter (λ c, Comment.parent c = Some p)
         (where_clauses claim_id None top_level exclude_mode expressions query).
Proof.
  intros Hp. unfold where_clauses. rewrite (truthy_str_Some p Hp).
  change (truthy_str None) with false. cbv iota.
  generalize (if truthy_str claim_id
              then if top_level
                   then filter (λ c, Comment.parent c = None)
                          (filter (λ c, Some (Comment.claim_id c) = claim_id) query)
                   else filter (λ c, Some (Comment.claim_id c) = claim_id) query
              else query).
  intros q.
  destruct (truthy_str exclude_mode), expressions as [e|];
    by rewrite ?(filter_comm (λ c, Comment.parent c = Some p)).
Qed.

(** C5, as the code has it.  For every parent_id that is not the empty
    string and every page size other than zero, on an engine that honours
    ORDER BY and a statement within its limits (bound values, and LIMIT
    and OFFSET as signed 64-bit integers), [comment_list] returns an
    envelope built from exactly the stored comments whose parent reference
    equals parent_id and which pass the other filters: it counts them in
    [total_items] and lists the requested page of them, newest first. *)
Theorem C5_parent_filter `{!sqlite.Engine} db claim_id p top_level exclude_mode
    page page_size expressions select_fields exclude_fields :
  orders_newest_first →
  p ≠ "" → page_size ≠ 0 →
  (sqlite.page_variables claim_id (Some p) top_level exclude_mode expressions
                         select_fields exclude_fields ≤ sqlite.max_variable_number)%nat →
  sqlite.int64 page_size →
  sqlite.int64 (sqlite.OFFSET page page_size) →
  let matching :=
    filter (λ c, Comment.parent c = Some p)
           (where_clauses claim_id None top_level exclude_mode (sqlite.holds <$> expressions)
                          (COMMENT db)) in
  ∃ sorted,
    sorted ≡ₚ matching ∧
    StronglySorted newer_first sorted ∧
    sqlite.comment_list db claim_id (Some p) top_level exclude_mode page page_size
                        expressions select_fields exclude_fields =
    Return (VDict [ ("page", VInt page);
                    ("page_size", VInt page_size);
                    ("total_pages", VInt (- ((- Z.of_nat (length matching)) `div` page_size)));
                    ("total_items", VInt (Z.of_nat (length matching)));
                    ("items",
                      VList (item_of db select_fields exclude_fields <$>
                               paginate page page_size sorted));
                    ("has_hidden_comments",
                      VBool (bool_decide (exclude_mode = Some "hidden"))) ]).
Proof.
  intros Horder Hp Hps Hvariables Hlimit Hoffset matching.
  rewrite sqlite_comment_list_eq.
  rewrite decide_True by done. rewrite decide_True by done.
  destruct (decide (page_size = 0)); [done|].
  cbv zeta. unfold matched. rewrite where_clauses_parent by done. fold matching.
  eexists. split; [apply Horder|]. split; [apply Horder|]. reflexivity.
Qed.

Lemma C5_parent_filter_witness :
  sqlite.comment_list (H := sample_engine) sample_db (Some "k1") (Some "c1") false None
                      1 50 None (Some ["comment_id"; "parent_id"]) None =
  Return (VDict [ ("page", VInt 1);
                  ("page_size", VInt 50);
                  ("total_pages", VInt 1);
                  ("total_items", VInt 1);
                  ("items", VList [VDict [("comment_id", VStr "c2"); ("parent_id", VStr "c1")]]);
                  ("has_hidden_comments", VBool false) ]).
Proof.
  destruct (C5_parent_filter (H := sample_engine) sample_db (Some "k1") "c1" false None
              1 50 None (Some ["comment_id"; "parent_id"]) None sample_engine_orders
              ltac:(done) ltac:(lia))
    as (sorted & Hsorted & _ & Hrun).
  - vm_compute. lia.
  - vm_compute. split; [discriminate|reflexivity].
  - vm_compute. split; [discriminate|reflexivity].
  - vm_compute in Hsorted. apply Permutation_singleton_r in Hsorted as ->.
    rewrite Hrun. vm_compute. reflexivity.
Defined.

(** An empty parent_id is not null, but no filter is applied for it: both
    sample comments come back although neither has the empty string as its
    parent. *)
Lemma C5_counterexample :
  comment_list sample_db None (Some "") false None 1 50 None (Some ["comment_id"]) None =
  Return (VDict [ ("page", VInt 1);
                  ("page_size", VInt 50);
                  ("total_pages", VInt 1);
                  ("total_items", VInt 2);
                  ("items", VList [VDict [("comment_id", VStr "c2")];
                                   VDict [("comment_id", VStr "c1")]]);
                  ("has_hidden_comments", VBool false) ]) ∧
  filter (λ c, Comment.parent c = Some "") (COMMENT sample_db) = [] ∧
  sqlite.comment_list (H := sample_engine) sample_db None (Some "") false None 1 50 None
                      (Some ["comment_id"]) None =
  comment_list sample_db None (Some "") false None 1 50 None (Some ["comment_id"]) None.
Proof. split_and!; vm_compute; reflexivity. Qed.

(** ** Listing comment identifiers *)

(** C3, as the code has it.  In a store holding exactly c1 (top-level, claim k1,
    timestamp 100) and c2 (reply to c1, claim k1, timestamp 200), whatever
    the other columns and the row order, [get_comment_ids] for claim k1
    without a parent_id, flattened, lists the top-level comment only:
    items is [c1] and replies is [(c1, None)]. *)
Theorem C3_flattened_ids body1 channel1 hidden1 signature1 signing_ts1
    body2 channel2 hidden2 signature2 signing_ts2 channels :
  let c1 := Comment.mk body1 channel1 "c1" hidden1 "k1" None signature1 signing_ts1 100 in
  let c2 := Comment.mk body2 channel2 "c2" hidden2 "k1" (Some "c1") signature2 signing_ts2 200 in
  let expected :=
    Return (VDict [ ("page", VInt 1);
                    ("page_size", VInt 50);
                    ("total_pages", VInt 1);
                    ("total_items", VInt 1);
                    ("items", VList [VStr "c1"]);
                    ("has_hidden_comments", VBool false);
                    ("replies", VList [VTuple [VStr "c1"; VNone]]) ]) in
  ddl.get_comment_ids {| COMMENT := [c1; c2]; CHANNEL := channels |}
                  (Some "k1") None 1 50 true = expected ∧
  ddl.get_comment_ids {| COMMENT := [c2; c1]; CHANNEL := channels |}
                  (Some "k1") None 1 50 true = expected.
Proof. split; vm_compute; reflexivity. Qed.

(** The reply c2 is not listed, so the result is not the one with
    items [c2, c1]. *)
Lemma C3_counterexample :
  ddl.get_comment_ids sample_db (Some "k1") None 1 50 true ≫= value_item "items" =
    Return (VList [VStr "c1"]) ∧
  ddl.get_comment_ids sample_db (Some "k1") None 1 50 true ≫= value_item "items" ≠
    Return (VList [VStr "c2"; VStr "c1"]) ∧
  ddl.get_comment_ids sample_db (Some "k1") None 1 50 true ≫= value_item "replies" ≠
    Return (VList [VTuple [VStr "c2"; VStr "c1"]; VTuple [VStr "c1"; VNone]]).
Proof. split_and!; vm_compute; congruence. Qed.

(** ** Fetching by identifier set *)

(** C4, at the failing input: for an empty identifier sequence the page
    size is zero and computing [total_pages] divides by it. *)
Theorem C4_empty_request_raises db :
  ddl.get_comments_by_id db [] = Raise ZeroDivisionError.
Proof. unfold ddl.get_comments_by_id. by rewrite comment_list_eq. Qed.

Lemma where_clauses_expression (e : Comment.t → bool) query :
  where_clauses None None false None (Some e) query = filter (λ c, e c = true) query.
Proof. reflexivity. Qed.

(** The rest of C4: for a request that is not empty the page size is the
    number of requested identifiers, and, comment identifiers being a
    primary key, the single page holds every comment found. *)
Lemma get_comments_by_id_one_page db comment_ids :
  comment_ids ≠ [] →
  NoDup (Comment.comment_id <$> COMMENT db) →
  let found := filter (λ c, Comment.comment_id c ∈ comment_ids) (COMMENT db) in
  ddl.get_comments_by_id db comment_ids =
  Return (VDict [ ("page", VInt 1);
                  ("page_size", VInt (Z.of_nat (length comment_ids)));
                  ("total_pages", VInt (if decide (found = []) then 0 else 1));
                  ("total_items", VInt (Z.of_nat (length found)));
                  ("items", VList (item_of db None None <$> order_by_timestamp_desc found));
                  ("has_hidden_comments", VBool false) ]).
Proof.
  intros Hne Hpk found. unfold ddl.get_comments_by_id. rewrite comment_list_eq.
  assert (0 < Z.of_nat (length comment_ids)) as Hlen by (destruct comment_ids; simpl; [done|lia]).
  destruct (decide (_ = 0)); [lia|].
  unfold page_rows, matched. rewrite where_clauses_expression.
  assert (filter (λ c, bool_decide (Comment.comment_id c ∈ comment_ids) = true) (COMMENT db)
          = found) as ->.
  { apply list_filter_iff. intros c. by rewrite bool_decide_eq_true. }
  assert (length found ≤ length comment_ids)%nat as Hfound.
  { rewrite <- (length_fmap Comment.comment_id found).
    apply submseteq_length, NoDup_submseteq.
    - eapply sublist_NoDup; [exact Hpk|]. apply fmap_sublist. apply sublist_filter.
    - intros k (c & -> & Hc)%list_elem_of_fmap.
      by apply list_elem_of_filter in Hc as [? _]. }
  rewrite paginate_in_range by lia.
  rewrite Nat2Z.id, Z.mul_0_l, drop_0.
  rewrite take_ge by (by rewrite length_order_by_timestamp_desc).
  pose proof (ceil_div_spec (Z.of_nat (length found)) _ Hlen) as Hceil. simpl in Hceil.
  destruct (decide (found = [])) as [Hnil|Hnil].
  - rewrite Hnil. simpl. rewrite Z.div_0_l by lia. reflexivity.
  - assert (0 < length found)%nat by (destruct found; simpl; [done|lia]).
    repeat f_equal. nia.
Qed.

(** ** The dispatcher *)

(** *** Requests and responses *)

Section dispatcher_facts.
Context `{!Imports}.

Lemma process_json_handled app d id m method p params :
  dict_get "id" d = Some id →
  dict_get "method" d = Some (VStr m) →
  registry_get m METHODS = Some method →
  default (VDict []) (dict_get "params" d) = p →
  clean_input_params p = Return params →
  process_json app (VDict d) =
  ((method app params).1,
   Return (VDict [ ("jsonrpc", VStr "2.0"); ("id", id);
                   match (method app params).2 with
                   | Return result => ("result", result)
                   | Raise e => ("error", ERRORS (classify e))
                   end ])).
Proof.
  intros Hid Hm Hreg Hp Hclean. unfold process_json, value_item, dict_item.
  rewrite Hid, Hm. cbn [mbind outcome_mbind outcome_bind lookup_method].
  rewrite Hreg. unfold value_get_default. rewrite Hp, Hclean.
  destruct (method app params) as [app' [result|e]]; reflexivity.
Qed.

Lemma process_json_envelope app v id :
  request_envelope v id → normalizable v →
  ∃ app' response,
    process_json app v = (app', Return response) ∧ response_envelope response id.
Proof.
  intros (d & m & -> & Hid & Hm) [params Hparams]. simpl in Hparams.
  destruct (registry_get m METHODS) as [method|] eqn:Hreg.
  - erewrite process_json_handled by done.
    eexists _, _. split; [reflexivity|].
    destruct (method app params).2; eexists _, _; split; eauto.
  - unfold process_json, value_item, dict_item.
    rewrite Hid, Hm. cbn [mbind outcome_mbind outcome_bind lookup_method].
    rewrite Hreg. eexists _, _. split; [reflexivity|].
    eexists _, _. split; [reflexivity|]. by right.
Qed.

Lemma process_batch_envelopes app batch :
  Forall normalizable batch →
  ∀ ids, Forall2 request_envelope batch ids →
  ∃ app' responses,
    process_batch app batch = (app', Return responses) ∧
    Forall2 response_envelope responses ids.
Proof.
  intros Hnorm. revert app.
  induction Hnorm as [|v batch Hv _ IH]; intros app ids Hids.
  - apply Forall2_nil_inv_l in Hids as ->. by eexists _, _.
  - apply Forall2_cons_inv_l in Hids as (id & ids' & Hreq & Hids & ->).
    destruct (process_json_envelope app v id Hreq Hv) as (app1 & response & Hrun & Hresp).
    destruct (IH app1 ids' Hids) as (app2 & responses & Hrest & Hresps).
    simpl. rewrite Hrun, Hrest. eexists _, _. split; [reflexivity|].
    by constructor.
Qed.

(** An exception that escapes [process_json] is never a JSON decoding
    error, unless the normalization step raises one. *)
Lemma process_json_escape app v app' e :
  (∀ p, clean_input_params p ≠ Raise JSONDecodeError) →
  process_json app v = (app', Raise e) →
  isinstance_JSONDecodeError e = false.
Proof.
  intros Hclean. unfold process_json, value_item, dict_item.
  destruct v as [| | | | | | |d]; try by intros [= <- <-].
  destruct (dict_get "id" d) as [id|]; [|by intros [= <- <-]].
  destruct (dict_get "method" d) as [method|]; [|by intros [= <- <-]].
  cbn [mbind outcome_mbind outcome_bind].
  destruct (lookup_method method) as [[h|]|e'] eqn:Hlookup.
  - unfold value_get_default.
    destruct (clean_input_params _) as [params|e'] eqn:Hp.
    + destruct (h app params) as [app1 [result|e1]]; intros [=].
    + intros [= <- <-]. destruct e'; try done. by destruct (Hclean _ Hp).
  - done.
  - intros [= <- <-].
    destruct method; try discriminate Hlookup; by injection Hlookup as <-.
Qed.

Lemma process_json_lacks_id app v :
  lacks_id v →
  ∃ e, process_json app v = (app, Raise e) ∧ isinstance_JSONDecodeError e = false.
Proof.
  unfold process_json, value_item, dict_item.
  destruct v as [| | | | | | |d]; simpl; try by eexists.
  intros ->. by eexists.
Qed.

Lemma process_batch_lacks_id app parts :
  (∀ p, clean_input_params p ≠ Raise JSONDecodeError) →
  Exists lacks_id parts →
  ∃ app' e,
    process_batch app parts = (app', Raise e) ∧ isinstance_JSONDecodeError e = false.
Proof.
  intros Hclean Hex. revert app.
  induction Hex as [part parts Hpart|part parts _ IH]; intros app; simpl.
  - destruct (process_json_lacks_id app part Hpart) as (e & -> & He). by eexists _, _.
  - destruct (process_json app part) as [app1 [response|e]] eqn:Hrun.
    + destruct (IH app1) as (app' & e & -> & He). by eexists _, _.
    + eexists _, _. split; [reflexivity|]. by eapply process_json_escape.
Qed.

Lemma forallb_elem_of (names keys : list string) :
  Forall (λ k, k ∈ names) keys →
  forallb (λ k, bool_decide (k ∈ names)) keys = true.
Proof.
  induction 1 as [|k keys Hk _ IH]; [done|].
  simpl. by rewrite bool_decide_eq_true_2, IH.
Qed.

(** Unpacking the parameters of a delete request binds the four arguments
    of [delete_comment_if_authorized], whatever the order of the keys. *)
Lemma handle_delete_comment_bound app kw comment_id channel_name channel_id signature :
  Forall (λ k, k ∈ ["comment_id"; "channel_name"; "channel_id"; "signature"]) (dict_keys kw) →
  dict_get "comment_id" kw = Some comment_id →
  dict_get "channel_name" kw = Some channel_name →
  dict_get "channel_id" kw = Some channel_id →
  dict_get "signature" kw = Some signature →
  handle_delete_comment app (VDict kw) =
  delete_comment_if_authorized app comment_id channel_name channel_id signature.
Proof.
  intros Hkeys H1 H2 H3 H4. unfold handle_delete_comment, bind_keywords.
  cbn [unpack mbind outcome_mbind outcome_bind].
  rewrite (forallb_elem_of _ _ Hkeys).
  cbn [mapM mbind outcome_mbind outcome_bind].
  rewrite H1, H2, H3, H4. reflexivity.
Qed.

End dispatcher_facts.

Lemma Forall_exists_Forall2 {A B} (R : A → B → Prop) (l : list A) :
  Forall (λ x, ∃ y, R x y) l → ∃ k, Forall2 R l k.
Proof.
  induction 1 as [|x l [y Hy] _ [k Hk]]; [by exists []|].
  exists (y :: k). by constructor.
Qed.

Lemma response_envelope_id response id :
  response_envelope response id → value_item "id" response = Return id.
Proof. by intros (key & v & -> & _). Qed.

Lemma request_envelope_id request id :
  request_envelope request id → value_item "id" request = Return id.
Proof. intros (d & m & -> & Hid & _). unfold value_item, dict_item. by rewrite Hid. Qed.

(** *** The delete authorization gate *)

(** C6.  When the authenticity check answers false,
    [delete_comment_if_authorized] leaves the application as it was (the
    database is unchanged and no job is spawned on the scheduler) and
    returns the ordinary result [{'deleted': False}]; a [delete_comment]
    request carrying these four parameters is then answered with that
    result, not with an error.  Conversely, whenever the operation changes
    the database or spawns a job, the check had answered true and the one
    job spawned is the channel-scoped delete. *)
Theorem C6_unauthorized_delete `{!Imports} app comment_id channel_name channel_id signature :
  (is_authentic_delete_signal app comment_id channel_name channel_id signature = Return false →
   delete_comment_if_authorized app comment_id channel_name channel_id signature =
     (app, Return (VDict [("deleted", VBool false)])) ∧
   ∀ body id kw,
     dict_get "id" body = Some id →
     dict_get "method" body = Some (VStr "delete_comment") →
     clean_input_params (default (VDict []) (dict_get "params" body)) = Return (VDict kw) →
     Forall (λ k, k ∈ ["comment_id"; "channel_name"; "channel_id"; "signature"])
            (dict_keys kw) →
     dict_get "comment_id" kw = Some comment_id →
     dict_get "channel_name" kw = Some channel_name →
     dict_get "channel_id" kw = Some channel_id →
     dict_get "signature" kw = Some signature →
     process_json app (VDict body) =
       (app, Return (VDict [ ("jsonrpc", VStr "2.0"); ("id", id);
                             ("result", VDict [("deleted", VBool false)]) ]))) ∧
  (∀ app' r,
     delete_comment_if_authorized app comment_id channel_name channel_id signature = (app', r) →
     db app' ≠ db app ∨ spawned app' ≠ spawned app →
     is_authentic_delete_signal app comment_id channel_name channel_id signature = Return true ∧
     spawned app' = (spawned app ++ [DeleteChannelComment comment_id channel_id])%list).
Proof.
  split.
  - intros Hauth.
    assert (delete_comment_if_authorized app comment_id channel_name channel_id signature =
            (app, Return (VDict [("deleted", VBool false)]))) as Hdelete.
    { unfold delete_comment_if_authorized. by rewrite Hauth. }
    split; [exact Hdelete|].
    intros body id kw Hid Hm Hclean Hkeys H1 H2 H3 H4.
    erewrite (process_json_handled app body id "delete_comment" handle_delete_comment)
      by done.
    by rewrite (handle_delete_comment_bound app kw comment_id channel_name channel_id signature),
      Hdelete.
  - intros app' r. unfold delete_comment_if_authorized.
    destruct (is_authentic_delete_signal _ _ _ _ _) as [[|]|e]; simpl.
    + unfold spawn_and_wait.
      destruct (run_job _ _) as [d r']. intros [= <- <-] _. done.
    + intros [= <- <-] [?|?]; done.
    + intros [= <- <-] [?|?]; done.
Qed.

Lemma C6_unauthorized_delete_witness :
  delete_comment_if_authorized (H := sample_imports) sample_app
    (VStr "c2") (VStr "@bob") (VStr "ch1") (VStr "forged") =
  (sample_app, Return (VDict [("deleted", VBool false)])) ∧
  process_json (H := sample_imports) sample_app (VDict (sample_delete "forged")) =
  (sample_app, Return (VDict [ ("jsonrpc", VStr "2.0"); ("id", VInt 9);
                               ("result", VDict [("deleted", VBool false)]) ])) ∧
  ∃ app',
    delete_comment_if_authorized (H := sample_imports) sample_app
      (VStr "c2") (VStr "@bob") (VStr "ch1") (VStr "valid") =
    (app', Return (VDict [("deleted", VBool true)])) ∧
    COMMENT (db app') = [sample_c1] ∧
    spawned app' = [DeleteChannelComment (VStr "c2") (VStr "ch1")].
Proof.
  destruct (C6_unauthorized_delete (H := sample_imports) sample_app
              (VStr "c2") (VStr "@bob") (VStr "ch1") (VStr "forged"))
    as [Hunauthorized _].
  destruct (Hunauthorized eq_refl) as [Hdelete Hrequest].
  split; [exact Hdelete|]. split.
  - eapply Hrequest; try reflexivity.
    repeat constructor; apply list_elem_of_In; simpl; tauto.
  - eexists. split; [vm_compute; reflexivity|].
    split; [reflexivity|].
    eapply (proj2 (C6_unauthorized_delete (H := sample_imports) sample_app
              (VStr "c2") (VStr "@bob") (VStr "ch1") (VStr "valid"))).
    + vm_compute. reflexivity.
    + left. simpl. intros [=].
Defined.

(** *** Batches *)

(** C8, as the code has it.  For a batch of request envelopes whose
    parameters pass the normalization step, the endpoint answers with a
    list of as many response envelopes, in the same order, the i-th
    carrying the identifier of the i-th request; and each such envelope
    sent alone is answered by a single response envelope carrying its
    identifier. *)
Theorem C8_batch_order `{!Imports} app batch :
  Forall (λ request, ∃ id, request_envelope request id) batch →
  Forall normalizable batch →
  (∃ app' responses,
     api_endpoint app (Return (VList batch)) = (app', VList responses) ∧
     length responses = length batch ∧
     ∀ i request, batch !! i = Some request →
       ∃ response id,
         responses !! i = Some response ∧
         value_item "id" request = Return id ∧
         value_item "id" response = Return id ∧
         response_envelope response id) ∧
  (∀ request, request ∈ batch →
     ∃ app' response id,
       api_endpoint app (Return request) = (app', response) ∧
       value_item "id" request = Return id ∧
       response_envelope response id).
Proof.
  intros Hreq Hnorm. split.
  - destruct (Forall_exists_Forall2 _ _ Hreq) as [ids Hids].
    destruct (process_batch_envelopes app batch Hnorm ids Hids)
      as (app' & responses & Hrun & Hresp).
    exists app', responses. unfold api_endpoint. rewrite Hrun.
    split; [reflexivity|]. split.
    { by rewrite (Forall2_length _ _ _ Hresp), (Forall2_length _ _ _ Hids). }
    intros i request Hi.
    destruct (Forall2_lookup_l _ _ _ _ _ Hids Hi) as (id & Hid & Hrequest).
    destruct (Forall2_lookup_r _ _ _ _ _ Hresp Hid) as (response & Hr & Hresponse).
    exists response, id.
    split_and!; eauto using request_envelope_id, response_envelope_id.
  - intros request Hin.
    destruct (proj1 (Forall_forall _ _) Hreq request Hin) as [id Hid].
    pose proof (proj1 (Forall_forall _ _) Hnorm request Hin) as Hn.
    destruct (process_json_envelope app request id Hid Hn) as (app' & response & Hrun & Hresp).
    exists app', response, id.
    split; [|split; eauto using request_envelope_id].
    destruct Hid as (d & m & -> & _). unfold api_endpoint. by rewrite Hrun.
Qed.

Lemma sample_batch_envelopes :
  Forall (λ request, ∃ id, request_envelope request id) sample_batch ∧
  Forall (normalizable (H := sample_imports)) sample_batch.
Proof.
  split; repeat constructor.
  all: try by (eexists _, _, _; split_and!; reflexivity).
  all: by eexists.
Qed.

Lemma C8_batch_order_witness :
  ∃ app' responses,
    api_endpoint (H := sample_imports) sample_app (Return (VList sample_batch)) =
      (app', VList responses) ∧
    length responses = 4%nat ∧
    (value_item "id" <$> responses) =
      [Return (VInt 1); Return (VStr "b"); Return (VInt 3); Return (VInt 4)].
Proof.
  destruct (C8_batch_order (H := sample_imports) sample_app sample_batch
              (proj1 sample_batch_envelopes) (proj2 sample_batch_envelopes))
    as [(app' & responses & Hrun & Hlen & _) _].
  exists app', responses. split; [exact Hrun|]. split; [exact Hlen|].
  vm_compute in Hrun. injection Hrun as _ <-. reflexivity.
Defined.

(** A batch of two request envelopes, the second with [params] null.  The
    normalization step runs outside the guarded block of [process_json];
    it raises on the null, and the batch is answered by one bare error, not
    by two response envelopes.  Sent alone, the second envelope gets the
    same bare error, which does not carry its identifier. *)
Lemma C8_counterexample :
  Forall (λ request, ∃ id, request_envelope request id) sample_null_params_batch ∧
  api_endpoint (H := sample_imports) sample_app (Return (VList sample_null_params_batch)) =
    (sample_app, VDict [("error", ERRORS INVALID_REQUEST)]) ∧
  api_endpoint (H := sample_imports) sample_app (Return sample_null_params) =
    (sample_app, VDict [("error", ERRORS INVALID_REQUEST)]).
Proof.
  split; [|split; vm_compute; reflexivity].
  repeat constructor; eexists _, _, _; split_and!; reflexivity.
Qed.

(** *** Requests without an identifier *)

(** C10.  A decoded body that is an object without an [id] key is answered
    by the single response [{'error': ERRORS['INVALID_REQUEST']}], which
    has no [id], and the application is left as it was.  A batch in which
    some element is not an object with an [id] key is answered by that same
    single response, not by one response per element, provided the
    normalization step applied to the elements before it does not raise a
    JSON decoding error. *)
Theorem C10_missing_id `{!Imports} app :
  (∀ d, dict_get "id" d = None →
     api_endpoint app (Return (VDict d)) =
       (app, VDict [("error", ERRORS INVALID_REQUEST)])) ∧
  ((∀ p, clean_input_params p ≠ Raise JSONDecodeError) →
   ∀ parts, Exists lacks_id parts →
     ∃ app',
       api_endpoint app (Return (VList parts)) =
         (app', VDict [("error", ERRORS INVALID_REQUEST)])).
Proof.
  split.
  - intros d Hid. unfold api_endpoint.
    destruct (process_json_lacks_id app (VDict d) Hid) as (e & -> & ->). done.
  - intros Hclean parts Hparts. unfold api_endpoint.
    destruct (process_batch_lacks_id app parts Hclean Hparts) as (app' & e & -> & He).
    exists app'. simpl. by rewrite He.
Qed.

Lemma C10_missing_id_witness :
  api_endpoint (H := sample_imports) sample_app
    (Return (VDict [("method", VStr "ping")])) =
    (sample_app, VDict [("error", ERRORS INVALID_REQUEST)]) ∧
  ∃ app',
    api_endpoint (H := sample_imports) sample_app
      (Return (VList [ VDict [("id", VInt 1); ("method", VStr "ping")];
                       VInt 5;
                       VDict [("id", VInt 3); ("method", VStr "ping")] ])) =
    (app', VDict [("error", ERRORS INVALID_REQUEST)]).
Proof.
  destruct (C10_missing_id (H := sample_imports) sample_app) as [Hobject Hbatch].
  split.
  - apply Hobject. reflexivity.
  - apply Hbatch.
    + intros p. by destruct p.
    + apply Exists_cons_tl, Exists_cons_hd. exact I.
Defined.

(** *** A single comment that does not exist *)

Lemma filter_none {A} (P : A → Prop) `{!∀ x, Decision (P x)} (l : list A) :
  (∀ x, x ∈ l → ¬ P x) → filter P l = [].
Proof.
  induction l as [|x l IH]; intros Hl; [done|].
  rewrite filter_cons, decide_False by (apply Hl; by left).
  apply IH. intros y Hy. apply Hl. by right.
Qed.

Lemma get_comment_raises db comment_id :
  (∀ c, c ∈ COMMENT db → Comment.comment_id c ≠ comment_id) →
  get_comment db comment_id = Raise IndexError.
Proof.
  intros Hnone. unfold get_comment. rewrite comment_list_eq.
  destruct (decide (1 = 0)); [done|].
  unfold page_rows, matched. rewrite where_clauses_expression.
  rewrite filter_none; [reflexivity|].
  intros c Hc. rewrite bool_decide_eq_true. by apply Hnone.
Qed.

(** C7, as the code has it.  When no stored row has the given comment_id,
    [get_comment] returns no value: popping the empty item list raises
    [IndexError], a lookup error.  [get_comment] is not itself a method of
    the dispatcher; a request whose handler ends with the outcome of that
    fetch is answered with the error [INTERNAL], the catch-all of
    [process_json], since [IndexError] is neither a [TypeError] nor a
    [ValueError]. *)
Theorem C7_not_found `{!Imports} d comment_id app body id m method params :
  (∀ c, c ∈ COMMENT d → Comment.comment_id c ≠ comment_id) →
  dict_get "id" body = Some id →
  dict_get "method" body = Some (VStr m) →
  registry_get m METHODS = Some method →
  clean_input_params (default (VDict []) (dict_get "params" body)) = Return params →
  (method app params).2 = get_comment d comment_id →
  get_comment d comment_id = Raise IndexError ∧
  registry_get "get_comment" METHODS = None ∧
  process_json app (VDict body) =
    ((method app params).1,
     Return (VDict [ ("jsonrpc", VStr "2.0"); ("id", id);
                     ("error", ERRORS INTERNAL) ])).
Proof.
  intros Hnone Hid Hm Hreg Hclean Hmethod.
  pose proof (get_comment_raises d comment_id Hnone) as Hraise.
  split; [exact Hraise|]. split; [reflexivity|].
  erewrite process_json_handled by done.
  by rewrite Hmethod, Hraise.
Qed.

Lemma C7_not_found_witness :
  get_comment sample_db "c0" = Raise IndexError ∧
  registry_get "get_comment" (METHODS (H := sample_imports)) = None ∧
  process_json (H := sample_imports) sample_app (VDict sample_lookup) =
    (sample_app,
     Return (VDict [ ("jsonrpc", VStr "2.0"); ("id", VInt 7);
                     ("error", ERRORS INTERNAL) ])).
Proof.
  apply (C7_not_found (H := sample_imports) sample_db "c0" sample_app sample_lookup
           (VInt 7) "get_channel_from_comment_id"
           (handle_get_channel_from_comment_id (H := sample_imports))
           (VDict [("comment_id", VStr "c0")])).
  - intros c Hc%list_elem_of_In. simpl in Hc.
    by destruct Hc as [<-|[<-|[]]].
  - reflexivity.
  - reflexivity.
  - reflexivity.
  - reflexivity.
  - vm_compute. reflexivity.
Defined.

(** The failure of a lookup fetch is surfaced as [INTERNAL], which is
    neither [INVALID_PARAMS] nor a code of its own for a missing row. *)
Lemma C7_counterexample :
  get_comment sample_db "c0" = Raise IndexError ∧
  classify IndexError = INTERNAL ∧
  process_json (H := sample_imports) sample_app (VDict sample_lookup) =
    (sample_app,
     Return (VDict [ ("jsonrpc", VStr "2.0"); ("id", VInt 7);
                     ("error", ERRORS INTERNAL) ])) ∧
  ERRORS INTERNAL ≠ ERRORS INVALID_PARAMS.
Proof. split_and!; [vm_compute; reflexivity..|discriminate]. Qed.


(** * Further properties of the query layer *)

(** ** Filters *)

(** X1.  The [where] clauses compose by conjunction: a row is matched exactly
    when it is stored and passes every clause whose argument is truthy.
    The top-level clause sits under the guard of the claim filter, so
    [top_level] has no effect when no claim identifier is given. *)
Theorem where_clauses_conjunction claim_id parent_id top_level exclude_mode
    expressions query c :
  c ∈ where_clauses claim_id parent_id top_level exclude_mode expressions query ↔
  c ∈ query ∧
  match claim_id with
  | Some k => k ≠ "" →
      Comment.claim_id c = k ∧ (top_level = true → Comment.parent c = None)
  | None => True
  end ∧
  match parent_id with
  | Some p => p ≠ "" → Comment.parent c = Some p
  | None => True
  end ∧
  match exclude_mode with
  | Some m => m ≠ "" → Comment.is_hidden c = String.eqb (lower m) "hidden"
  | None => True
  end ∧
  match expressions with
  | Some e => e c = true
  | None => True
  end.
Proof.
  unfold where_clauses.
  destruct claim_id as [k|], parent_id as [p|], exclude_mode as [m|],
    expressions as [e|], top_level;
    cbn [truthy_str default];
    repeat match goal with
           | |- context [String.eqb ?s ""] => destruct (String.eqb_spec s "")
           end;
    cbn [negb];
    rewrite ?list_elem_of_filter;
    intuition congruence.
Qed.

(** ** Ordering and pages *)

#[global] Instance newer_first_total : Total newer_first.
Proof. intros a b. unfold newer_first. lia. Qed.

#[global] Instance newer_first_transitive : Transitive newer_first.
Proof. intros a b c. unfold newer_first. lia. Qed.






(** X4.  Page numbers below 1 and negative page sizes are not rejected.  Page 0
    sends the statement of page 1 and is served like it.  With a negative
    page size, on an engine that honours ORDER BY and a statement within
    its limits, no limit applies: every page from 1 on carries all matched
    rows, newest first, and [total_pages] is not positive. *)
Theorem unchecked_page_arguments `{!sqlite.Engine} db claim_id parent_id top_level
    exclude_mode expressions :
  orders_newest_first →
  (∀ page_size select_fields exclude_fields,
     sqlite.comment_list db claim_id parent_id top_level exclude_mode 0 page_size
                         expressions select_fields exclude_fields ≫= value_item "items" =
     sqlite.comment_list db claim_id parent_id top_level exclude_mode 1 page_size
                         expressions select_fields exclude_fields ≫= value_item "items") ∧
  (∀ page page_size select_fields exclude_fields,
     page_size < 0 → 1 ≤ page →
     (sqlite.page_variables claim_id parent_id top_level exclude_mode expressions
                            select_fields exclude_fields ≤ sqlite.max_variable_number)%nat →
     sqlite.int64 page_size →
     sqlite.int64 (sqlite.OFFSET page page_size) →
     let matching :=
       where_clauses claim_id parent_id top_level exclude_mode (sqlite.holds <$> expressions)
                     (COMMENT db) in
     ∃ total_pages sorted,
       total_pages ≤ 0 ∧
       sorted ≡ₚ matching ∧
       StronglySorted newer_first sorted ∧
       sqlite.comment_list db claim_id parent_id top_level exclude_mode page page_size
                           expressions select_fields exclude_fields =
       Return (VDict [ ("page", VInt page);
                       ("page_size", VInt page_size);
                       ("total_pages", VInt total_pages);
                       ("total_items", VInt (Z.of_nat (length matching)));
                       ("items", VList (item_of db select_fields exclude_fields <$> sorted));
                       ("has_hidden_comments",
                         VBool (bool_decide (exclude_mode = Some "hidden"))) ])).
Proof.
  intros Horder. split.
  - intros page_size select_fields exclude_fields.
    rewrite !sqlite_comment_list_eq.
    change (sqlite.OFFSET 0 page_size) with (sqlite.OFFSET 1 page_size).
    assert (∀ rows : list Comment.t, paginate 0 page_size rows = paginate 1 page_size rows)
      as Hrows.
    { intros rows. unfold paginate.
      destruct (decide (0 < 0)); [lia|]. destruct (decide (0 < 1)); [|lia].
      by replace (0 * page_size) with ((1 - 1) * page_size) by lia. }
    destruct (decide (_ ≤ _)%nat); [|reflexivity].
    destruct (decide (sqlite.int64 page_size ∧ _)); [|reflexivity].
    destruct (decide (page_size = 0)); [reflexivity|].
    cbv zeta. rewrite Hrows. reflexivity.
  - intros page page_size select_fields exclude_fields Hps Hpage Hvariables Hlimit Hoffset
      matching.
    rewrite sqlite_comment_list_eq.
    rewrite decide_True by done. rewrite decide_True by done.
    destruct (decide (page_size = 0)); [lia|].
    cbv zeta. unfold paginate, matched. fold matching.
    set (total := Z.of_nat (length matching)).
    exists (- ((- total) `div` page_size)). eexists. split.
    + assert (0 ≤ (- total) `div` page_size); [|lia].
      rewrite <- (Z.div_opp_opp (- total) page_size) by lia.
      rewrite Z.opp_involutive. apply Z.div_pos; lia.
    + split; [apply Horder|]. split; [apply Horder|].
      destruct (decide (0 < page)); [|lia].
      destruct (decide (page_size < 0)); [|lia].
      replace (Z.to_nat ((page - 1) * page_size)) with 0%nat by nia.
      rewrite drop_0. reflexivity.
Qed.

Lemma unchecked_page_arguments_witness :
  sqlite.comment_list (H := sample_engine) sample_db None None false None 0 1 None
                      (Some ["comment_id"]) None
    ≫= value_item "items" = Return (VList [VDict [("comment_id", VStr "c2")]]) ∧
  ∃ total_pages,
    total_pages ≤ 0 ∧
    sqlite.comment_list (H := sample_engine) sample_db None None false None 3 (-1) None
                        (Some ["comment_id"]) None =
    Return (VDict [ ("page", VInt 3);
                    ("page_size", VInt (-1));
                    ("total_pages", VInt total_pages);
                    ("total_items", VInt 2);
                    ("items", VList [ VDict [("comment_id", VStr "c2")];
                                      VDict [("comment_id", VStr "c1")] ]);
                    ("has_hidden_comments", VBool false) ]).
Proof.
  destruct (unchecked_page_arguments (H := sample_engine) sample_db None None false None
              None sample_engine_orders)
    as [Hzero Hnegative].
  split.
  - rewrite Hzero. vm_compute. reflexivity.
  - destruct (Hnegative 3 (-1) (Some ["comment_id"]) None ltac:(lia) ltac:(lia))
      as (total_pages & sorted & Hle & _ & _ & Hrun).
    + vm_compute. lia.
    + vm_compute. split; [discriminate|reflexivity].
    + vm_compute. split; [discriminate|reflexivity].
    + exists total_pages. split; [exact Hle|].
      vm_compute in Hrun. injection Hrun as <- _. vm_compute. reflexivity.
Defined.

(** ** Items *)

Lemma not_is_None v : negb (is_None v) ↔ v ≠ VNone.
Proof. destruct v; simpl; split; (done || by intros []). Qed.

(** X5.  [clean] keeps exactly the entries whose value is not [None], in their
    order, and cleaning twice changes nothing more. *)
Theorem clean_keeps_non_null thing :
  clean (clean thing) = clean thing ∧
  clean thing `sublist_of` thing ∧
  ∀ k v, (k, v) ∈ clean thing ↔ (k, v) ∈ thing ∧ v ≠ VNone.
Proof.
  unfold clean. split; [|split].
  - by apply list_filter_filter_l.
  - apply sublist_filter.
  - intros k v. rewrite list_elem_of_filter. simpl. rewrite not_is_None. tauto.
Qed.


Lemma dict_get_all_None (d : dict) : (∀ k, dict_get k d = None) → d = [].
Proof.
  destruct d as [|[k v] d]; [done|]. intros Hd. specialize (Hd k).
  simpl in Hd. by rewrite decide_True in Hd.
Qed.


(** The keys of an item, when at least one registry key is projected. *)
Lemma dict_get_item_of db select_fields exclude_fields c k0 :
  projected select_fields exclude_fields k0 →
  ∃ d, item_of db select_fields exclude_fields c = VDict d ∧
    ∀ k v, dict_get k d = Some v ↔
           projected select_fields exclude_fields k ∧
           stored_value db c k = Some v ∧ v ≠ VNone.
Proof.
  intros Hk0. eexists. split; [reflexivity|].
  set (fields := selected_fields select_fields exclude_fields).
  assert (select (attributes_of fields) = attributes_of fields) as ->.
  { pose proof Hk0 as (Hreg & _).
    apply registry_get_is_Some in Hreg as [e0 He0].
    apply (select_nonempty (k0, e0)), elem_of_attributes_of.
    split; [by apply elem_of_selected_fields|done]. }
  intros k v. rewrite dict_get_clean_row_dict by apply NoDup_attributes_of.
  unfold stored_value. rewrite fmap_Some. split.
  - intros (e & [Hk He]%elem_of_attributes_of & -> & Hv).
    split; [by apply elem_of_selected_fields|]. split; [by exists e|done].
  - intros (Hk & (e & He & ->) & Hv). exists e.
    split; [|done]. apply elem_of_attributes_of.
    split; [by apply elem_of_selected_fields|done].
Qed.





(** ** The visibility filter *)




(** ** Fetching one comment *)

Lemma NoDup_fmap_eq {A B} (f : A → B) (l : list A) x y :
  NoDup (f <$> l) → x ∈ l → y ∈ l → f x = f y → x = y.
Proof.
  induction l as [|a l IH]; [by intros _ ?%elem_of_nil|].
  rewrite fmap_cons, NoDup_cons, !elem_of_cons.
  intros [Ha Hl] [->|Hx] [->|Hy] Hf; [done| | |by apply IH].
  - destruct Ha. rewrite Hf. by apply list_elem_of_fmap_2.
  - destruct Ha. rewrite <- Hf. by apply list_elem_of_fmap_2.
Qed.

(** The page fetched for one identifier: empty when no row has it, else a
    single stored row that has it. *)
Lemma fetch_one_rows db comment_id :
  let rows :=
    page_rows db None None false None 1 1
              (Some (λ c, bool_decide (Comment.comment_id c = comment_id))) in
  ((∀ c, c ∈ COMMENT db → Comment.comment_id c ≠ comment_id) → rows = []) ∧
  (∀ c, c ∈ COMMENT db → Comment.comment_id c = comment_id →
     ∃ c', rows = [c'] ∧ c' ∈ COMMENT db ∧ Comment.comment_id c' = comment_id ∧
           (NoDup (Comment.comment_id <$> COMMENT db) → c' = c)).
Proof.
  intros rows. subst rows. unfold page_rows, matched.
  rewrite where_clauses_expression, paginate_in_range by lia.
  change (Z.to_nat ((1 - 1) * 1)) with 0%nat. change (Z.to_nat 1) with 1%nat.
  rewrite drop_0.
  set (found := filter _ _).
  assert (∀ c', c' ∈ found ↔ c' ∈ COMMENT db ∧ Comment.comment_id c' = comment_id)
    as Hfound.
  { intros c'. unfold found. rewrite list_elem_of_filter, bool_decide_eq_true. tauto. }
  assert (∀ c', c' ∈ order_by_timestamp_desc found ↔ c' ∈ found) as Hsorted.
  { intros c'. unfold order_by_timestamp_desc. by rewrite merge_sort_Permutation. }
  split.
  - intros Hnone. destruct (order_by_timestamp_desc found) as [|c' l]; [done|].
    destruct (Hnone c'); apply Hfound, Hsorted; by left.
  - intros c Hc Hid.
    destruct (order_by_timestamp_desc found) as [|c' l].
    { exfalso. eapply elem_of_nil, Hsorted, Hfound. done. }
    assert (c' ∈ COMMENT db ∧ Comment.comment_id c' = comment_id) as [Hc' Hid'].
    { apply Hfound, Hsorted. by left. }
    exists c'. split_and!; [done..|].
    intros Hpk. eapply NoDup_fmap_eq; [exact Hpk|done..|congruence].
Qed.

(** X8.  [get_comment] returns exactly when some stored row has the identifier;
    what it returns is the full item of such a row, the row itself when
    comment identifiers are unique, as a primary key makes them. *)
Theorem get_comment_found db comment_id c :
  c ∈ COMMENT db → Comment.comment_id c = comment_id →
  ∃ c',
    get_comment db comment_id = Return (item_of db None None c') ∧
    c' ∈ COMMENT db ∧ Comment.comment_id c' = comment_id ∧
    (NoDup (Comment.comment_id <$> COMMENT db) → c' = c).
Proof.
  intros Hc Hid.
  destruct (proj2 (fetch_one_rows db comment_id) c Hc Hid) as (c' & Hrows & Hc').
  exists c'. split; [|exact Hc'].
  unfold get_comment. rewrite comment_list_eq.
  destruct (decide (1 = 0)); [done|]. cbv zeta. rewrite Hrows. reflexivity.
Qed.

Lemma get_comment_found_witness :
  get_comment sample_db "c1" =
  Return (VDict [ ("comment_id", VStr "c1"); ("comment", VStr "first");
                  ("claim_id", VStr "k1"); ("is_hidden", VBool false);
                  ("timestamp", VInt 100) ]).
Proof.
  destruct (get_comment_found sample_db "c1" sample_c1) as (c' & -> & _ & _ & Hsame).
  - apply list_elem_of_In. simpl. tauto.
  - reflexivity.
  - rewrite Hsame; [vm_compute; reflexivity|].
    cbn. apply NoDup_cons. split; [|apply NoDup_singleton].
    intros Hin%list_elem_of_In. simpl in Hin. intuition discriminate.
Defined.

Lemma sample_db_primary_key : NoDup (Comment.comment_id <$> COMMENT sample_db).
Proof.
  cbn. apply NoDup_cons. split; [|apply NoDup_singleton].
  intros Hin%list_elem_of_In. simpl in Hin. intuition discriminate.
Qed.

Lemma channel_fields_projected k :
  projected (Some ["channel_name"; "channel_id"; "channel_url"]) None k ↔
  k = "channel_name" ∨ k = "channel_id" ∨ k = "channel_url".
Proof.
  unfold projected. split.
  - intros (_ & _ & Hsel). specialize (Hsel _ eq_refl ltac:(done)).
    apply list_elem_of_In in Hsel. simpl in Hsel. intuition.
  - intros Hk. split_and!.
    + apply list_elem_of_In. simpl. intuition.
    + intros l [=].
    + intros l [= <-] _. apply list_elem_of_In. simpl. intuition.
Qed.

Lemma stored_channel_values db c :
  let resolved := ch ← Comment.channel c; (ch,.) <$> CHANNEL db !! ch in
  stored_value db c "channel_id" = Some (opt_str (fst <$> resolved)) ∧
  stored_value db c "channel_name" = Some (opt_str (snd <$> resolved)) ∧
  stored_value db c "channel_url" =
    Some (opt_str ((λ p, "lbry://" +:+ p.2 +:+ "#" +:+ p.1) <$> resolved)).
Proof.
  unfold stored_value, left_outer_join.
  destruct (Comment.channel c) as [ch|]; [|done]. simpl.
  by destruct (CHANNEL db !! ch).
Qed.

(** X9.  [get_channel_from_comment_id] on a stored comment: when the comment's
    channel reference resolves to a channel row, the result holds that
    channel's identifier and name and the URL [lbry://name#identifier], and
    nothing else; when the comment is anonymous or its channel row is
    missing, the result is the empty object. *)
Theorem get_channel_from_comment_id_found db comment_id c :
  NoDup (Comment.comment_id <$> COMMENT db) →
  c ∈ COMMENT db → Comment.comment_id c = comment_id →
  match ch ← Comment.channel c; (ch,.) <$> CHANNEL db !! ch with
  | Some (channel_id, name) =>
      ∃ d, ddl.get_channel_from_comment_id db comment_id = Return (VDict d) ∧
        dict_get "channel_id" d = Some (VStr channel_id) ∧
        dict_get "channel_name" d = Some (VStr name) ∧
        dict_get "channel_url" d = Some (VStr ("lbry://" +:+ name +:+ "#" +:+ channel_id)) ∧
        ∀ k, is_Some (dict_get k d) →
             k = "channel_name" ∨ k = "channel_id" ∨ k = "channel_url"
  | None => ddl.get_channel_from_comment_id db comment_id = Return (VDict [])
  end.
Proof.
  intros Hpk Hc Hid.
  destruct (proj2 (fetch_one_rows db comment_id) c Hc Hid) as (c' & Hrows & _ & _ & Hsame).
  rewrite (Hsame Hpk) in Hrows. clear c' Hsame.
  assert (ddl.get_channel_from_comment_id db comment_id =
          Return (item_of db (Some ["channel_name"; "channel_id"; "channel_url"]) None c))
    as ->.
  { unfold ddl.get_channel_from_comment_id. rewrite comment_list_eq.
    destruct (decide (1 = 0)); [done|]. cbv zeta. rewrite Hrows. reflexivity. }
  destruct (dict_get_item_of db (Some ["channel_name"; "channel_id"; "channel_url"]) None
              c "channel_id") as (d & -> & Hd).
  { apply channel_fields_projected. auto. }
  assert (∀ k v, dict_get k d = Some v → k = "channel_name" ∨ k = "channel_id" ∨ k = "channel_url")
    as Hkeys.
  { intros k v (Hk & _)%Hd. by apply channel_fields_projected. }
  destruct (stored_channel_values db c) as (Hid' & Hname' & Hurl'). cbv zeta in *.
  destruct (ch ← Comment.channel c; (ch,.) <$> CHANNEL db !! ch) as [[ch name]|];
    simpl in Hid', Hname', Hurl'.
  - exists d. split; [done|]. split_and!.
    + apply Hd. split_and!; [apply channel_fields_projected; auto|done..].
    + apply Hd. split_and!; [apply channel_fields_projected; auto|done..].
    + apply Hd. split_and!; [apply channel_fields_projected; auto|done..].
    + intros k [v Hv]. by eapply Hkeys.
  - do 2 f_equal. apply dict_get_all_None. intros k.
    destruct (dict_get k d) as [v|] eqn:Hget; [|done]. exfalso.
    destruct (Hkeys k v Hget) as [-> | [-> | ->]];
      apply Hd in Hget as (_ & Hstored & Hv); congruence.
Qed.

Lemma get_channel_from_comment_id_found_witness :
  (∃ d, ddl.get_channel_from_comment_id sample_db "c2" = Return (VDict d) ∧
     dict_get "channel_url" d = Some (VStr "lbry://@bob#ch1")) ∧
  ddl.get_channel_from_comment_id sample_db "c1" = Return (VDict []).
Proof.
  assert (sample_c2 ∈ COMMENT sample_db ∧ sample_c1 ∈ COMMENT sample_db) as [Hc2 Hc1].
  { split; apply list_elem_of_In; simpl; tauto. }
  pose proof (get_channel_from_comment_id_found sample_db "c2" sample_c2
                sample_db_primary_key Hc2 eq_refl) as Hfound.
  pose proof (get_channel_from_comment_id_found sample_db "c1" sample_c1
                sample_db_primary_key Hc1 eq_refl) as Hanonymous.
  assert ((ch ← Comment.channel sample_c2; (ch,.) <$> CHANNEL sample_db !! ch) =
          Some ("ch1", "@bob")) as Hresolved by (vm_compute; reflexivity).
  assert ((ch ← Comment.channel sample_c1; (ch,.) <$> CHANNEL sample_db !! ch) =
          @None (string * string)) as Hunresolved by reflexivity.
  rewrite Hresolved in Hfound. rewrite Hunresolved in Hanonymous.
  destruct Hfound as (d & Hrun & _ & _ & Hurl & _).
  split; [|exact Hanonymous].
  exists d. split; [exact Hrun|exact Hurl].
Defined.

(** ** Listing identifiers *)

Lemma mapM_fmap_Return {A B C} (f : B → outcome C) (g : A → B) (h : A → C) (l : list A) :
  (∀ x, x ∈ l → f (g x) = Return (h x)) →
  mapM f (g <$> l) = Return (h <$> l).
Proof.
  induction l as [|x l IH]; intros Hl; [done|].
  rewrite !fmap_cons. cbn [mapM]. rewrite Hl by (by left).
  cbn [mbind outcome_mbind outcome_bind].
  fold (mapM f (g <$> l)). rewrite IH by (intros y Hy; apply Hl; by right).
  reflexivity.
Qed.

Lemma id_fields_projected k :
  projected (Some ["comment_id"; "parent_id"]) None k ↔
  k = "comment_id" ∨ k = "parent_id".
Proof.
  unfold projected. split.
  - intros (_ & _ & Hsel). specialize (Hsel _ eq_refl ltac:(done)).
    apply list_elem_of_In in Hsel. simpl in Hsel. intuition.
  - intros Hk. split_and!.
    + apply list_elem_of_In. simpl. intuition.
    + intros l [=].
    + intros l [= <-] _. apply list_elem_of_In. simpl. intuition.
Qed.

(** What the flattened mode reads from the item of a row. *)
Lemma id_item_fields db c :
  let item := item_of db (Some ["comment_id"; "parent_id"]) None c in
  value_item "comment_id" item = Return (VStr (Comment.comment_id c)) ∧
  value_get "parent_id" item = Return (opt_str (Comment.parent c)).
Proof.
  intros item. subst item.
  destruct (dict_get_item_of db (Some ["comment_id"; "parent_id"]) None c "comment_id")
    as (d & -> & Hd).
  { apply id_fields_projected. auto. }
  unfold value_item, dict_item, value_get, value_get_default. split.
  - rewrite (proj2 (Hd "comment_id" (VStr (Comment.comment_id c)))); [done|].
    split_and!; [apply id_fields_projected; auto|done..].
  - destruct (Comment.parent c) as [p|] eqn:Hp.
    + rewrite (proj2 (Hd "parent_id" (VStr p))); [done|].
      split_and!; [apply id_fields_projected; auto| |done].
      unfold stored_value. simpl. by rewrite Hp.
    + destruct (dict_get "parent_id" d) as [v|] eqn:Hget; [|done].
      apply Hd in Hget as (_ & Hstored & Hv).
      unfold stored_value in Hstored. simpl in Hstored. rewrite Hp in Hstored.
      by injection Hstored as <-.
Qed.

Section sqlite_identifiers.
Context `{!sqlite.Engine}.

(** [sqlite.get_comment_ids] in terms of the rows of the page. *)
Lemma sqlite_get_comment_ids_eq db claim_id parent_id page page_size flattened :
  sqlite.get_comment_ids db claim_id parent_id page page_size flattened =
  let matched := matched db claim_id parent_id (bool_decide (parent_id = None)) None None in
  let items :=
    item_of db (Some ["comment_id"; "parent_id"]) None <$>
      paginate page page_size
        (sqlite.order_rows
           (select (attributes_of (selected_fields (Some ["comment_id"; "parent_id"]) None))).*1
           page_size (sqlite.OFFSET page page_size) matched) in
  let envelope items :=
    [ ("page", VInt page);
      ("page_size", VInt page_size);
      ("total_pages", VInt (- ((- Z.of_nat (length matched)) `div` page_size)));
      ("total_items", VInt (Z.of_nat (length matched)));
      ("items", VList items);
      ("has_hidden_comments", VBool false) ] in
  if decide (sqlite.where_variables claim_id parent_id (bool_decide (parent_id = None))
                                    None None + 2
             ≤ sqlite.max_variable_number)%nat then
    if decide (sqlite.int64 page_size ∧ sqlite.int64 (sqlite.OFFSET page page_size)) then
      if decide (page_size = 0) then Raise ZeroDivisionError
      else if flattened then
        ids ← mapM (value_item "comment_id") items;
        replies ← mapM (λ item,
                     cid ← value_item "comment_id" item;
                     pid ← value_get "parent_id" item;
                     mret (VTuple [cid; pid])) items;
        Return (VDict (envelope ids ++ [("replies", VList replies)]))
      else Return (VDict (envelope items))
    else Raise sqlite.OverflowError
  else Raise sqlite.OperationalError.
Proof.
  unfold sqlite.get_comment_ids. rewrite sqlite_comment_list_eq.
  change (sqlite.page_variables claim_id parent_id (bool_decide (parent_id = None)) None None
            (Some ["comment_id"; "parent_id"]) None)
    with (0 + sqlite.where_variables claim_id parent_id (bool_decide (parent_id = None))
                                     None None + 2)%nat.
  rewrite Nat.add_0_l.
  destruct (decide (_ ≤ _)%nat); [|reflexivity].
  destruct (decide (sqlite.int64 page_size ∧ _)); [|reflexivity].
  destruct (decide (page_size = 0)); [reflexivity|].
  destruct flattened; reflexivity.
Qed.

Lemma where_variables_ids claim_id parent_id :
  (sqlite.where_variables claim_id parent_id (bool_decide (parent_id = None)) None None + 2
   ≤ 4)%nat.
Proof.
  unfold sqlite.where_variables.
  destruct claim_id as [k|], parent_id as [p|]; simpl;
    repeat match goal with |- context [negb ?b] => destruct b; simpl end; lia.
Qed.

End sqlite_identifiers.

(** X10.  [get_comment_ids] in flattened mode, for any page size but zero, on
    an engine that honours ORDER BY and a statement within its limits (it
    binds at most four values): it never misses a key; [items] lists the
    identifiers of the rows of the page, newest first, and [replies] pairs
    each of these identifiers with the row's parent identifier, [None] for
    a top-level comment, in the same order.  Without a parent_id the rows
    are top-level ones only; with one, the top-level clause is off. *)
Theorem get_comment_ids_flattened `{!sqlite.Engine} db claim_id parent_id page page_size :
  orders_newest_first →
  page_size ≠ 0 →
  (4 ≤ sqlite.max_variable_number)%nat →
  sqlite.int64 page_size →
  sqlite.int64 (sqlite.OFFSET page page_size) →
  ∃ sorted total_pages total_items,
    sorted ≡ₚ where_clauses claim_id parent_id (bool_decide (parent_id = None)) None None
                            (COMMENT db) ∧
    StronglySorted newer_first sorted ∧
    let rows := paginate page page_size sorted in
    sqlite.get_comment_ids db claim_id parent_id page page_size true =
    Return (VDict [ ("page", VInt page);
                    ("page_size", VInt page_size);
                    ("total_pages", VInt total_pages);
                    ("total_items", VInt total_items);
                    ("items", VList ((λ c, VStr (Comment.comment_id c)) <$> rows));
                    ("has_hidden_comments", VBool false);
                    ("replies",
                      VList ((λ c, VTuple [ VStr (Comment.comment_id c);
                                            opt_str (Comment.parent c) ]) <$> rows)) ]).
Proof.
  intros Horder Hps Hvariables Hlimit Hoffset.
  rewrite sqlite_get_comment_ids_eq. cbv zeta.
  pose proof (where_variables_ids claim_id parent_id).
  rewrite decide_True by lia. rewrite decide_True by done.
  destruct (decide (page_size = 0)); [done|].
  rewrite (mapM_fmap_Return (value_item "comment_id") _ (λ c, VStr (Comment.comment_id c)))
    by (intros c _; apply id_item_fields).
  cbn [mbind outcome_mbind outcome_bind].
  rewrite (mapM_fmap_Return _ _
             (λ c, VTuple [VStr (Comment.comment_id c); opt_str (Comment.parent c)])).
  - eexists _, _, _. split; [apply Horder|]. split; [apply Horder|]. reflexivity.
  - intros c _. destruct (id_item_fields db c) as [-> ->]. reflexivity.
Qed.

Lemma get_comment_ids_flattened_witness :
  ∃ total_pages total_items,
    sqlite.get_comment_ids (H := sample_engine) sample_db (Some "k1") (Some "c1") 1 50 true =
    Return (VDict [ ("page", VInt 1);
                    ("page_size", VInt 50);
                    ("total_pages", VInt total_pages);
                    ("total_items", VInt total_items);
                    ("items", VList [VStr "c2"]);
                    ("has_hidden_comments", VBool false);
                    ("replies", VList [VTuple [VStr "c2"; VStr "c1"]]) ]).
Proof.
  destruct (get_comment_ids_flattened (H := sample_engine) sample_db (Some "k1") (Some "c1")
              1 50 sample_engine_orders ltac:(lia))
    as (sorted & tp & ti & Hsorted & _ & Hrun).
  - vm_compute. lia.
  - vm_compute. split; [discriminate|reflexivity].
  - vm_compute. split; [discriminate|reflexivity].
  - vm_compute in Hsorted. apply Permutation_singleton_r in Hsorted as ->.
    exists tp, ti. rewrite Hrun. reflexivity.
Defined.

(** ** Fetching by identifier set *)

(** X11.  [get_comments_by_id] on a request that is not empty, comment
    identifiers being a primary key, on an engine that honours ORDER BY and
    within its limits (the statement binds one value per requested
    identifier and four more): the page size is the number of requested
    identifiers, duplicates and unknown ones included, [total_pages] is 0
    or 1, and the single page holds every stored comment whose identifier
    was requested, newest first. *)
Theorem get_comments_by_id_single_page `{!sqlite.Engine} db comment_ids :
  orders_newest_first →
  comment_ids ≠ [] →
  NoDup (Comment.comment_id <$> COMMENT db) →
  (length comment_ids + 4 ≤ sqlite.max_variable_number)%nat →
  Z.of_nat (length comment_ids) < 2 ^ 63 →
  let found := filter (λ c, Comment.comment_id c ∈ comment_ids) (COMMENT db) in
  ∃ sorted,
    sorted ≡ₚ found ∧
    StronglySorted newer_first sorted ∧
    sqlite.get_comments_by_id db comment_ids =
    Return (VDict [ ("page", VInt 1);
                    ("page_size", VInt (Z.of_nat (length comment_ids)));
                    ("total_pages", VInt (if decide (found = []) then 0 else 1));
                    ("total_items", VInt (Z.of_nat (length found)));
                    ("items", VList (item_of db None None <$> sorted));
                    ("has_hidden_comments", VBool false) ]).
Proof.
  intros Horder Hne Hpk Hvariables Hint found.
  unfold sqlite.get_comments_by_id. rewrite sqlite_comment_list_eq.
  set (expression := {| sqlite.holds := _; sqlite.variables := _ |}).
  change (sqlite.page_variables None None false None (Some expression) None None)
    with (2 + (0 + 0 + 0 + length comment_ids) + 2)%nat.
  change (sqlite.OFFSET 1 (Z.of_nat (length comment_ids)))
    with (0 * Z.of_nat (length comment_ids)).
  assert (0 < Z.of_nat (length comment_ids)) as Hlen by (destruct comment_ids; simpl; [done|lia]).
  rewrite decide_True by lia.
  rewrite decide_True by (unfold sqlite.int64; lia).
  destruct (decide (_ = 0)); [lia|].
  cbv zeta. unfold matched. simpl (sqlite.holds <$> Some expression).
  rewrite where_clauses_expression.
  assert (filter (λ c, bool_decide (Comment.comment_id c ∈ comment_ids) = true) (COMMENT db)
          = found) as ->.
  { apply list_filter_iff. intros c. by rewrite bool_decide_eq_true. }
  assert (length found ≤ length comment_ids)%nat as Hfound.
  { rewrite <- (length_fmap Comment.comment_id found).
    apply submseteq_length, NoDup_submseteq.
    - eapply sublist_NoDup; [exact Hpk|]. apply fmap_sublist. apply sublist_filter.
    - intros k (c & -> & Hc)%list_elem_of_fmap.
      by apply list_elem_of_filter in Hc as [? _]. }
  eexists. split; [apply Horder|]. split; [apply Horder|].
  rewrite paginate_in_range by lia.
  rewrite Nat2Z.id, Z.mul_0_l, drop_0.
  rewrite take_ge by (by rewrite order_rows_length).
  pose proof (ceil_div_spec (Z.of_nat (length found)) _ Hlen) as Hceil. simpl in Hceil.
  destruct (decide (found = [])) as [Hnil|Hnil].
  - rewrite Hnil. simpl. rewrite Z.div_0_l by lia. reflexivity.
  - assert (0 < length found)%nat by (destruct found; simpl; [done|lia]).
    repeat f_equal. nia.
Qed.

Lemma get_comments_by_id_single_page_witness :
  sqlite.get_comments_by_id (H := sample_engine) sample_db ["c2"; "zz"; "c2"] =
  Return (VDict [ ("page", VInt 1);
                  ("page_size", VInt 3);
                  ("total_pages", VInt 1);
                  ("total_items", VInt 1);
                  ("items", VList [item_of sample_db None None sample_c2]);
                  ("has_hidden_comments", VBool false) ]).
Proof.
  destruct (get_comments_by_id_single_page (H := sample_engine) sample_db ["c2"; "zz"; "c2"]
              sample_engine_orders ltac:(done) sample_db_primary_key)
    as (sorted & Hsorted & _ & Hrun).
  - vm_compute. lia.
  - reflexivity.
  - vm_compute in Hsorted. apply Permutation_singleton_r in Hsorted as ->.
    rewrite Hrun. vm_compute. reflexivity.
Defined.

(** ** What the read operations can raise *)

Section sqlite_failures.
Context `{!sqlite.Engine}.

(** The page of a fetch by identifier: empty when no stored row has the
    identifier, one row otherwise. *)
Lemma sqlite_fetch_one db comment_id columns :
  orders_newest_first →
  let rows :=
    paginate 1 1
      (sqlite.order_rows columns 1 (sqlite.OFFSET 1 1)
         (matched db None None false None
                  (Some (λ c, bool_decide (Comment.comment_id c = comment_id))))) in
  ((∀ c, c ∈ COMMENT db → Comment.comment_id c ≠ comment_id) ∧ rows = []) ∨
  ((∃ c, c ∈ COMMENT db ∧ Comment.comment_id c = comment_id) ∧ ∃ c, rows = [c]).
Proof.
  intros Horder rows. subst rows. unfold matched. rewrite where_clauses_expression.
  rewrite paginate_in_range by lia.
  change (Z.to_nat ((1 - 1) * 1)) with 0%nat. change (Z.to_nat 1) with 1%nat.
  rewrite drop_0.
  set (found := filter _ (COMMENT db)).
  set (sorted := sqlite.order_rows _ _ _ found).
  assert (length sorted = length found) as Hlength by (by apply order_rows_length).
  destruct found as [|c found'] eqn:Hfound.
  - left. destruct sorted; [|done]. split; [|done].
    intros c Hc Hid.
    assert (c ∈ found) as Hin; [|by rewrite Hfound in Hin; apply not_elem_of_nil in Hin].
    apply list_elem_of_filter. by rewrite bool_decide_eq_true.
  - right. split.
    + assert (c ∈ found) as Hin by (rewrite Hfound; by left).
      apply list_elem_of_filter in Hin as [Hid Hin].
      apply bool_decide_eq_true in Hid. by exists c.
    + destruct sorted as [|c' sorted']; [done|]. by exists c'.
Qed.

End sqlite_failures.

(** X12.  On an engine that honours ORDER BY, and for statements within its
    variable limit, the read operations fail in three ways only.  The three
    that return an envelope raise [OverflowError] exactly when LIMIT or
    OFFSET does not fit a signed 64-bit integer and [ZeroDivisionError]
    exactly when the page size is zero (for [get_comments_by_id], when no
    identifier is requested); the two that return a single item raise
    [IndexError] exactly when no stored row has the identifier.  In every
    other case they return. *)
Theorem read_operations_failures `{!sqlite.Engine} db e :
  orders_newest_first →
  (∀ claim_id parent_id top_level exclude_mode page page_size expressions
     select_fields exclude_fields,
     (sqlite.page_variables claim_id parent_id top_level exclude_mode expressions
                            select_fields exclude_fields ≤ sqlite.max_variable_number)%nat →
     sqlite.comment_list db claim_id parent_id top_level exclude_mode page page_size
                         expressions select_fields exclude_fields = Raise e ↔
     ¬ (sqlite.int64 page_size ∧ sqlite.int64 (sqlite.OFFSET page page_size)) ∧
       e = sqlite.OverflowError ∨
     page_size = 0 ∧ e = ZeroDivisionError) ∧
  (∀ claim_id parent_id page page_size flattened,
     (4 ≤ sqlite.max_variable_number)%nat →
     sqlite.get_comment_ids db claim_id parent_id page page_size flattened = Raise e ↔
     ¬ (sqlite.int64 page_size ∧ sqlite.int64 (sqlite.OFFSET page page_size)) ∧
       e = sqlite.OverflowError ∨
     page_size = 0 ∧ e = ZeroDivisionError) ∧
  (∀ comment_ids,
     (length comment_ids + 4 ≤ sqlite.max_variable_number)%nat →
     sqlite.get_comments_by_id db comment_ids = Raise e ↔
     2 ^ 63 ≤ Z.of_nat (length comment_ids) ∧ e = sqlite.OverflowError ∨
     comment_ids = [] ∧ e = ZeroDivisionError) ∧
  (∀ comment_id,
     (5 ≤ sqlite.max_variable_number)%nat →
     sqlite.get_comment db comment_id = Raise e ↔
     (∀ c, c ∈ COMMENT db → Comment.comment_id c ≠ comment_id) ∧ e = IndexError) ∧
  (∀ comment_id,
     (5 ≤ sqlite.max_variable_number)%nat →
     sqlite.get_channel_from_comment_id db comment_id = Raise e ↔
     (∀ c, c ∈ COMMENT db → Comment.comment_id c ≠ comment_id) ∧ e = IndexError).
Proof.
  intros Horder. split_and!.
  - intros * Hv. rewrite sqlite_comment_list_eq. rewrite decide_True by done.
    destruct (decide (sqlite.int64 page_size ∧ _)) as [Hr|Hr].
    + destruct (decide (page_size = 0)) as [Hz|Hz].
      * split; [intros [= <-]; auto|]. intros [(? & _)|(_ & ->)]; done.
      * split; [done|]. intros [(? & _)|(? & _)]; done.
    + split; [intros [= <-]; auto|].
      intros [(_ & ->)|(-> & _)]; [done|].
      exfalso. apply Hr, int64_page_size_zero.
  - intros * Hv. rewrite sqlite_get_comment_ids_eq. cbv zeta.
    pose proof (where_variables_ids claim_id parent_id).
    rewrite decide_True by lia.
    destruct (decide (sqlite.int64 page_size ∧ _)) as [Hr|Hr].
    + destruct (decide (page_size = 0)) as [Hz|Hz].
      * split; [intros [= <-]; auto|]. intros [(? & _)|(_ & ->)]; done.
      * assert (∀ envelope : value,
                  Return envelope = Raise e ↔
                  ¬ (sqlite.int64 page_size ∧ sqlite.int64 (sqlite.OFFSET page page_size)) ∧
                    e = sqlite.OverflowError ∨
                  page_size = 0 ∧ e = ZeroDivisionError) as Hreturn.
        { intros envelope. split; [done|]. intros [(? & _)|(? & _)]; done. }
        destruct flattened; [|apply Hreturn].
        rewrite (mapM_fmap_Return (value_item "comment_id") _
                   (λ c, VStr (Comment.comment_id c)))
          by (intros c _; apply id_item_fields).
        cbn [mbind outcome_mbind outcome_bind].
        rewrite (mapM_fmap_Return _ _
                   (λ c, VTuple [VStr (Comment.comment_id c); opt_str (Comment.parent c)])).
        -- apply Hreturn.
        -- intros c _. destruct (id_item_fields db c) as [-> ->]. reflexivity.
    + split; [intros [= <-]; auto|].
      intros [(_ & ->)|(-> & _)]; [done|].
      exfalso. apply Hr, int64_page_size_zero.
  - intros * Hv. unfold sqlite.get_comments_by_id. rewrite sqlite_comment_list_eq.
    set (expression := {| sqlite.holds := _; sqlite.variables := _ |}).
    change (sqlite.page_variables None None false None (Some expression) None None)
      with (2 + (0 + 0 + 0 + length comment_ids) + 2)%nat.
    change (sqlite.OFFSET 1 (Z.of_nat (length comment_ids)))
      with (0 * Z.of_nat (length comment_ids)).
    rewrite decide_True by lia.
    destruct (decide (sqlite.int64 _ ∧ _)) as [Hr|Hr].
    + destruct (decide (_ = 0)) as [Hz|Hz].
      * assert (comment_ids = []) as Hnil by (destruct comment_ids; [done|simpl in Hz; lia]).
        split; [intros [= <-]; auto|].
        intros [(? & _)|(_ & ->)]; [|done].
        rewrite Hnil in *. simpl in *. lia.
      * split; [done|]. intros [(? & _)|(-> & _)]; [|done].
        destruct Hr as [[_ ?] _]. lia.
    + split.
      * intros [= <-]. left. split; [|done]. unfold sqlite.int64 in Hr. lia.
      * intros [(_ & ->)|(-> & _)]; [done|].
        exfalso. apply Hr. split; vm_compute; (split; [discriminate|reflexivity]).
  - intros * Hv. unfold sqlite.get_comment. rewrite sqlite_comment_list_eq.
    set (expression := {| sqlite.holds := _; sqlite.variables := _ |}).
    change (sqlite.page_variables None None false None (Some expression) None None)
      with 5%nat.
    rewrite decide_True by done.
    rewrite decide_True by (split; vm_compute; (split; [discriminate|reflexivity])).
    destruct (decide (1 = 0)); [done|]. cbv zeta.
    destruct (sqlite_fetch_one db comment_id
                (select (attributes_of (selected_fields None None))).*1 Horder)
      as [[Hnone Hrows]|[(c0 & Hc0 & Hid0) [c Hrows]]];
      cbv zeta in Hrows; simpl (sqlite.holds <$> Some expression); rewrite Hrows.
    + split; [intros [= <-]; auto|]. by intros (_ & ->).
    + split; [done|]. intros (Hnone & _). by destruct (Hnone c0 Hc0).
  - intros * Hv. unfold sqlite.get_channel_from_comment_id. rewrite sqlite_comment_list_eq.
    set (expression := {| sqlite.holds := _; sqlite.variables := _ |}).
    change (sqlite.page_variables None None false None (Some expression)
              (Some ["channel_name"; "channel_id"; "channel_url"]) None) with 5%nat.
    rewrite decide_True by done.
    rewrite decide_True by (split; vm_compute; (split; [discriminate|reflexivity])).
    destruct (decide (1 = 0)); [done|]. cbv zeta.
    destruct (sqlite_fetch_one db comment_id
                (select (attributes_of
                   (selected_fields (Some ["channel_name"; "channel_id"; "channel_url"])
                                    None))).*1 Horder)
      as [[Hnone Hrows]|[(c0 & Hc0 & Hid0) [c Hrows]]];
      cbv zeta in Hrows; simpl (sqlite.holds <$> Some expression); rewrite Hrows.
    + split; [intros [= <-]; auto|]. by intros (_ & ->).
    + split; [done|]. intros (Hnone & _). by destruct (Hnone c0 Hc0).
Qed.

Lemma read_operations_failures_witness :
  sqlite.get_comment (H := sample_engine) sample_db "c0" = Raise IndexError ∧
  sqlite.comment_list (H := sample_engine) sample_db None None false None 1 (2 ^ 63)
                      None None None = Raise sqlite.OverflowError.
Proof.
  split.
  - destruct (read_operations_failures (H := sample_engine) sample_db IndexError
                sample_engine_orders) as (_ & _ & _ & Hone & _).
    apply Hone; [vm_compute; lia|]. split; [|done].
    intros c Hc%list_elem_of_In. simpl in Hc. by destruct Hc as [<-|[<-|[]]].
  - destruct (read_operations_failures (H := sample_engine) sample_db sqlite.OverflowError
                sample_engine_orders) as (Hlist & _).
    apply Hlist; [vm_compute; lia|]. left. split; [|done].
    intros [[_ Hlimit] _]. vm_compute in Hlimit. done.
Defined.

(** * Further properties of the dispatcher *)

Section dispatcher_more.
Context `{!Imports}.

Lemma registry_get_absent {A} k (reg : list (string * A)) :
  k ∉ reg.*1 → registry_get k reg = None.
Proof.
  intros Hk. destruct (registry_get k reg) eqn:Hget; [|done].
  destruct Hk. apply registry_get_is_Some. by eexists.
Qed.

(** ** Methods *)

(** X13.  The liveness check: a [ping] request is answered ['pong'] whatever its
    parameters, as long as they pass the normalization step, and leaves the
    application as it was. *)
Theorem ping_answers_pong app body id params :
  dict_get "id" body = Some id →
  dict_get "method" body = Some (VStr "ping") →
  clean_input_params (default (VDict []) (dict_get "params" body)) = Return params →
  process_json app (VDict body) =
    (app, Return (VDict [ ("jsonrpc", VStr "2.0"); ("id", id);
                          ("result", VStr "pong") ])).
Proof.
  intros Hid Hm Hclean.
  by erewrite (process_json_handled app body id "ping" ping).
Qed.

(** X14.  A method that is not one of the seven registered names, or is not a
    string at all but hashable, is answered [METHOD_NOT_FOUND] under the
    request's identifier.  The parameters are not looked at: the answer is
    the same when they would fail normalization, and the application is
    left as it was. *)
Theorem unknown_method_not_found app body id method :
  dict_get "id" body = Some id →
  dict_get "method" body = Some method →
  match method with
  | VStr m =>
      m ∉ [ "ping"; "get_claim_comments"; "get_comment_ids"; "get_comments_by_id";
            "get_channel_from_comment_id"; "create_comment"; "delete_comment" ]
  | VList _ | VDict _ => False
  | _ => True
  end →
  process_json app (VDict body) =
    (app, Return (VDict [ ("jsonrpc", VStr "2.0"); ("id", id);
                          ("error", ERRORS METHOD_NOT_FOUND) ])).
Proof.
  intros Hid Hm Hmethod. unfold process_json, value_item, dict_item.
  rewrite Hid, Hm. cbn [mbind outcome_mbind outcome_bind].
  destruct method as [| | | |m| | |]; try done.
  cbn [lookup_method]. by rewrite (registry_get_absent m METHODS).
Qed.

(** X15.  A registered method whose parameters pass normalization always gets a
    response under the request's identifier, never an escaping exception:
    the handler's value as [result], or, when the handler raises, the error
    [INVALID_PARAMS] for a [TypeError] or a [ValueError] (of which a JSON
    decoding error is one) and [INTERNAL] for anything else. *)
Theorem handler_faults_are_classified app body id m method params :
  dict_get "id" body = Some id →
  dict_get "method" body = Some (VStr m) →
  registry_get m METHODS = Some method →
  clean_input_params (default (VDict []) (dict_get "params" body)) = Return params →
  ∃ app' outcome,
    method app params = (app', outcome) ∧
    process_json app (VDict body) =
      (app',
       Return (VDict [ ("jsonrpc", VStr "2.0"); ("id", id);
                       match outcome with
                       | Return result => ("result", result)
                       | Raise (TypeError | ValueError | JSONDecodeError) =>
                           ("error", ERRORS INVALID_PARAMS)
                       | Raise _ => ("error", ERRORS INTERNAL)
                       end ])).
Proof.
  intros Hid Hm Hreg Hclean.
  erewrite process_json_handled by done.
  destruct (method app params) as [app' [result|e]]; eexists _, _; (split; [done|]);
    [done|by destruct e].
Qed.

(** ** Exceptions that escape [process_json] *)

(** X16.  An exception escapes [process_json] only before any handler has run, so
    the application is unchanged.  It is the [TypeError] of a request that
    is not an object or whose method is a list or an object, the [KeyError]
    of a missing [id] or [method], or whatever the normalization step
    raised on the parameters of a registered method. *)
Theorem process_json_escapes app request app' e :
  process_json app request = (app', Raise e) →
  app' = app ∧
  match request with
  | VDict body =>
      match dict_get "id" body, dict_get "method" body with
      | None, _ | Some _, None => e = KeyError
      | Some _, Some (VList _ | VDict _) => e = TypeError
      | Some _, Some (VStr m) =>
          is_Some (registry_get m METHODS) ∧
          clean_input_params (default (VDict []) (dict_get "params" body)) = Raise e
      | Some _, Some _ => False
      end
  | _ => e = TypeError
  end.
Proof.
  unfold process_json, value_item, dict_item.
  destruct request as [| | | | | | |body]; try by intros [= <- <-].
  destruct (dict_get "id" body) as [id|]; [|by intros [= <- <-]].
  destruct (dict_get "method" body) as [method|]; [|by intros [= <- <-]].
  cbn [mbind outcome_mbind outcome_bind].
  destruct method as [| | | |m|l|l|l]; cbn [lookup_method]; try by intros [= <- <-].
  destruct (registry_get m METHODS) as [h|]; [|done].
  unfold value_get_default.
  destruct (clean_input_params _) as [params|e'].
  - destruct (h app params) as [app1 [result|e1]]; intros [=].
  - intros [= <- <-]. split; [done|]. split; [by eexists|done].
Qed.

End dispatcher_more.

Lemma ping_answers_pong_witness :
  process_json (H := sample_imports) sample_app
    (VDict [("id", VInt 1); ("method", VStr "ping"); ("params", VDict [("x", VNone)])]) =
  (sample_app, Return (VDict [ ("jsonrpc", VStr "2.0"); ("id", VInt 1);
                               ("result", VStr "pong") ])).
Proof.
  eapply (ping_answers_pong (H := sample_imports)); reflexivity.
Defined.

Lemma unknown_method_not_found_witness :
  process_json (H := sample_imports) sample_app
    (VDict [("id", VInt 2); ("method", VStr "get_comment"); ("params", VInt 0)]) =
  (sample_app, Return (VDict [ ("jsonrpc", VStr "2.0"); ("id", VInt 2);
                               ("error", ERRORS METHOD_NOT_FOUND) ])) ∧
  process_json (H := sample_imports) sample_app
    (VDict [("id", VInt 3); ("method", VInt 7)]) =
  (sample_app, Return (VDict [ ("jsonrpc", VStr "2.0"); ("id", VInt 3);
                               ("error", ERRORS METHOD_NOT_FOUND) ])).
Proof.
  split.
  - eapply (unknown_method_not_found (H := sample_imports)); [reflexivity..|].
    intros Hin%list_elem_of_In. simpl in Hin. intuition discriminate.
  - eapply (unknown_method_not_found (H := sample_imports)); [reflexivity..|exact I].
Defined.

Lemma handler_faults_are_classified_witness :
  process_json (H := sample_imports) sample_app
    (VDict [("id", VInt 4); ("method", VStr "get_comments_by_id");
            ("params", VDict [("comment_ids", VList [])])]) =
  (sample_app, Return (VDict [ ("jsonrpc", VStr "2.0"); ("id", VInt 4);
                               ("error", ERRORS INTERNAL) ])) ∧
  process_json (H := sample_imports) sample_app
    (VDict [("id", VInt 5); ("method", VStr "get_comments_by_id")]) =
  (sample_app, Return (VDict [ ("jsonrpc", VStr "2.0"); ("id", VInt 5);
                               ("error", ERRORS INVALID_PARAMS) ])).
Proof.
  split.
  - destruct (handler_faults_are_classified (H := sample_imports) sample_app
                [("id", VInt 4); ("method", VStr "get_comments_by_id");
                 ("params", VDict [("comment_ids", VList [])])]
                (VInt 4) "get_comments_by_id"
                (handle_get_comments_by_id (H := sample_imports))
                (VDict [("comment_ids", VList [])])
                eq_refl eq_refl eq_refl eq_refl) as (app' & outcome & Hrun & ->).
    vm_compute in Hrun. by injection Hrun as <- <-.
  - destruct (handler_faults_are_classified (H := sample_imports) sample_app
                [("id", VInt 5); ("method", VStr "get_comments_by_id")]
                (VInt 5) "get_comments_by_id"
                (handle_get_comments_by_id (H := sample_imports))
                (VDict [])
                eq_refl eq_refl eq_refl eq_refl) as (app' & outcome & Hrun & ->).
    vm_compute in Hrun. by injection Hrun as <- <-.
Defined.

Lemma process_json_escapes_witness :
  process_json (H := sample_imports) sample_app
    (VDict [("id", VInt 6); ("method", VStr "ping"); ("params", VList [])]) =
  (sample_app, Raise AttributeError).
Proof.
  destruct (process_json (H := sample_imports) sample_app
              (VDict [("id", VInt 6); ("method", VStr "ping"); ("params", VList [])]))
    as [app' [response|e]] eqn:Hrun; [by vm_compute in Hrun|].
  destruct (process_json_escapes (H := sample_imports) _ _ _ _ Hrun) as [-> [_ Hclean]].
  simpl in Hclean. by injection Hclean as <-.
Defined.

Section endpoint_more.
Context `{!Imports}.

(** ** The endpoint *)

(** X17.  Bodies that are no requests at all.  A body that could not be decoded
    is answered [PARSE_ERROR]; any other failure to read the body, and any
    decoded body that is neither an array nor an object, is answered
    [INVALID_REQUEST]; an empty batch is answered by an empty array.  None
    of these touches the application. *)
Theorem endpoint_malformed_bodies app :
  api_endpoint app (Raise JSONDecodeError) = (app, VDict [("error", ERRORS PARSE_ERROR)]) ∧
  (∀ e, e ≠ JSONDecodeError →
     api_endpoint app (Raise e) = (app, VDict [("error", ERRORS INVALID_REQUEST)])) ∧
  (∀ body,
     match body with VList _ | VDict _ => False | _ => True end →
     api_endpoint app (Return body) = (app, VDict [("error", ERRORS INVALID_REQUEST)])) ∧
  api_endpoint app (Return (VList [])) = (app, VList []).
Proof.
  split_and!; [done| |by intros []|done].
  intros e He. unfold api_endpoint. by destruct e.
Qed.

(** X18.  A single request object that has an [id], but whose method is missing
    or is a list or an object, or whose parameters fail the normalization
    step of a registered method, is not answered under its identifier: the
    failure happens outside the guarded call, so the answer is the bare
    [INVALID_REQUEST] ([PARSE_ERROR] if normalization raised a JSON decoding
    error), never [INVALID_PARAMS], and no handler has run. *)
Theorem endpoint_unguarded_failures app body id :
  dict_get "id" body = Some id →
  (∀ e,
     match dict_get "method" body with
     | None | Some (VList _ | VDict _) => True
     | Some (VStr m) =>
         is_Some (registry_get m METHODS) ∧
         clean_input_params (default (VDict []) (dict_get "params" body)) = Raise e
     | Some _ => False
     end →
     api_endpoint app (Return (VDict body)) =
       (app,
        VDict [("error",
                ERRORS match dict_get "method" body, e with
                       | Some (VStr _), JSONDecodeError => PARSE_ERROR
                       | _, _ => INVALID_REQUEST
                       end)])).
Proof.
  intros Hid e. unfold api_endpoint, process_json, value_item, dict_item.
  rewrite Hid. destruct (dict_get "method" body) as [method|]; [|done].
  cbn [mbind outcome_mbind outcome_bind].
  destruct method as [| | | |m|l|l|l]; cbn [lookup_method]; try done.
  intros [[h ->] Hclean]. unfold value_get_default. rewrite Hclean.
  by destruct e.
Qed.

(** ** Batches *)

(** X19.  Processing a batch is processing its parts from left to right on the
    application as the earlier parts left it: a batch split in two is the
    first half followed by the second, and when the first half raises, the
    second is not processed at all. *)
Theorem process_batch_app app parts1 parts2 :
  process_batch app (parts1 ++ parts2) =
  match process_batch app parts1 with
  | (app1, Return responses1) =>
      match process_batch app1 parts2 with
      | (app2, Return responses2) => (app2, Return (responses1 ++ responses2)%list)
      | (app2, Raise e) => (app2, Raise e)
      end
  | (app1, Raise e) => (app1, Raise e)
  end.
Proof.
  revert app. induction parts1 as [|part parts1 IH]; intros app.
  - simpl. by destruct (process_batch app parts2) as [app2 [responses2|e]].
  - rewrite <- app_comm_cons. cbn [process_batch].
    destruct (process_json app part) as [app1 [response|e]]; [|done].
    rewrite IH.
    destruct (process_batch app1 parts1) as [app2 [responses1|e]]; [|done].
    by destruct (process_batch app2 parts2) as [app3 [responses2|e]].
Qed.

(** X20.  A batch that fails is not undone.  When the parts before the first
    element without an [id] are answered, the whole batch gets the single
    [INVALID_REQUEST] response, the application is left as those earlier
    parts made it (their writes stay), and the parts after the failing
    element are never processed. *)
Theorem failed_batch_keeps_earlier_effects app before bad after app1 responses :
  process_batch app before = (app1, Return responses) →
  lacks_id bad →
  api_endpoint app (Return (VList (before ++ bad :: after))) =
    (app1, VDict [("error", ERRORS INVALID_REQUEST)]).
Proof.
  intros Hbefore Hbad. unfold api_endpoint.
  assert (∃ e, process_batch app (before ++ bad :: after) = (app1, Raise e) ∧
               isinstance_JSONDecodeError e = false) as (e & -> & He).
  { revert app responses Hbefore.
    induction before as [|part before IH]; intros app responses Hbefore.
    - injection Hbefore as <- _. rewrite app_nil_l. cbn [process_batch].
      destruct (process_json_lacks_id app bad Hbad) as (e & -> & He). by exists e.
    - rewrite <- app_comm_cons. cbn [process_batch] in *.
      destruct (process_json app part) as [app2 [response|e]]; [|done].
      destruct (process_batch app2 before) as [app3 [responses'|e]] eqn:Hrest; [|done].
      injection Hbefore as -> _.
      destruct (IH app2 responses' Hrest) as (e & -> & He). by exists e. }
  simpl. by rewrite He.
Qed.

(** ** Handlers *)

(** X22.  A [create_comment] request whose parameters pass normalization spawns
    exactly one job, which carries the normalized parameters, and is
    answered under its identifier.  When the parameters are not an object
    the job fails on unpacking them: the database is unchanged and the
    answer is [INVALID_PARAMS]. *)
Theorem create_comment_spawns_one_job app body id params :
  dict_get "id" body = Some id →
  dict_get "method" body = Some (VStr "create_comment") →
  clean_input_params (default (VDict []) (dict_get "params" body)) = Return params →
  ∃ app' response,
    process_json app (VDict body) = (app', Return response) ∧
    response_envelope response id ∧
    spawned app' = (spawned app ++ [WriteComment params])%list ∧
    (match params with VDict _ => False | _ => True end →
     db app' = db app ∧
     response = VDict [ ("jsonrpc", VStr "2.0"); ("id", id);
                        ("error", ERRORS INVALID_PARAMS) ]).
Proof.
  intros Hid Hm Hclean.
  erewrite (process_json_handled app body id "create_comment" handle_create_comment)
    by done.
  unfold handle_create_comment, spawn_and_wait, run_job.
  destruct params as [| | | | | | |kw]; cbn [unpack].
  8:{ destruct (create_comment_or_error (db app) kw) as [d [result|e]];
      eexists _, _; (split; [reflexivity|]); cbn [fst snd];
      (split; [eexists _, _; split; [reflexivity|auto]|]); by split. }
  all: eexists _, _; (split; [reflexivity|]); cbn [fst snd];
    (split; [eexists _, _; split; [reflexivity|auto]|]); by split.
Qed.

End endpoint_more.

Section delete_more.
Context `{!Imports}.

Lemma handle_delete_comment_rejects app params :
  match params with
  | VDict kw =>
      (∃ k, k ∈ dict_keys kw ∧
            k ∉ ["comment_id"; "channel_name"; "channel_id"; "signature"]) ∨
      (∃ n, n ∈ ["comment_id"; "channel_name"; "channel_id"; "signature"] ∧
            dict_get n kw = None)
  | _ => True
  end →
  handle_delete_comment app params = (app, Raise TypeError).
Proof.
  unfold handle_delete_comment, bind_keywords.
  destruct params as [| | | | | | |kw]; try done.
  cbn [unpack mbind outcome_mbind outcome_bind].
  destruct (forallb _ (dict_keys kw)) eqn:Hkeys; [|done].
  intros [(k & Hk & Hnot)|(n & Hn & Hnone)].
  - rewrite forallb_forall in Hkeys.
    specialize (Hkeys k (proj1 (list_elem_of_In _ _) Hk)).
    by apply bool_decide_eq_true in Hkeys.
  - cbn [mapM mbind outcome_mbind outcome_bind].
    apply list_elem_of_In in Hn. simpl in Hn.
    destruct (dict_get "comment_id" kw) eqn:H1; [|done].
    destruct (dict_get "channel_name" kw) eqn:H2; [|done].
    destruct (dict_get "channel_id" kw) eqn:H3; [|done].
    destruct (dict_get "signature" kw) eqn:H4; [|done].
    destruct Hn as [<-|[<-|[<-|[<-|[]]]]]; congruence.
Qed.

(** X23.  A [delete_comment] request whose parameters are not an object, lack one
    of [comment_id], [channel_name], [channel_id], [signature], or carry
    any other key, is answered [INVALID_PARAMS]: binding the arguments
    fails before the authenticity check is consulted, and the application
    is left as it was. *)
Theorem delete_comment_bad_params app body id params :
  dict_get "id" body = Some id →
  dict_get "method" body = Some (VStr "delete_comment") →
  clean_input_params (default (VDict []) (dict_get "params" body)) = Return params →
  match params with
  | VDict kw =>
      (∃ k, k ∈ dict_keys kw ∧
            k ∉ ["comment_id"; "channel_name"; "channel_id"; "signature"]) ∨
      (∃ n, n ∈ ["comment_id"; "channel_name"; "channel_id"; "signature"] ∧
            dict_get n kw = None)
  | _ => True
  end →
  process_json app (VDict body) =
    (app, Return (VDict [ ("jsonrpc", VStr "2.0"); ("id", id);
                          ("error", ERRORS INVALID_PARAMS) ])).
Proof.
  intros Hid Hm Hclean Hbad.
  erewrite (process_json_handled app body id "delete_comment" handle_delete_comment)
    by done.
  by rewrite (handle_delete_comment_rejects app params Hbad).
Qed.

End delete_more.

Lemma delete_comment_bad_params_witness :
  process_json (H := sample_imports) sample_app
    (VDict [ ("id", VInt 8); ("method", VStr "delete_comment");
             ("params", VDict [ ("comment_id", VStr "c2"); ("channel_id", VStr "ch1");
                                ("channel_name", VStr "@bob") ]) ]) =
  (sample_app, Return (VDict [ ("jsonrpc", VStr "2.0"); ("id", VInt 8);
                               ("error", ERRORS INVALID_PARAMS) ])).
Proof.
  eapply (delete_comment_bad_params (H := sample_imports)); [reflexivity..|].
  right. exists "signature". split; [|reflexivity].
  apply list_elem_of_In. simpl. tauto.
Defined.

Lemma endpoint_unguarded_failures_witness :
  api_endpoint (H := sample_imports) sample_app
    (Return (VDict [("id", VInt 6); ("method", VStr "ping"); ("params", VList [])])) =
  (sample_app, VDict [("error", ERRORS INVALID_REQUEST)]) ∧
  api_endpoint (H := sample_imports) sample_app (Return (VDict [("id", VInt 6)])) =
  (sample_app, VDict [("error", ERRORS INVALID_REQUEST)]).
Proof.
  split.
  - apply (endpoint_unguarded_failures (H := sample_imports) sample_app
             [("id", VInt 6); ("method", VStr "ping"); ("params", VList [])]
             (VInt 6) eq_refl AttributeError).
    split; [by eexists|reflexivity].
  - apply (endpoint_unguarded_failures (H := sample_imports) sample_app
             [("id", VInt 6)] (VInt 6) eq_refl KeyError).
    exact I.
Defined.

Lemma failed_batch_keeps_earlier_effects_witness :
  api_endpoint (H := sample_imports) sample_app
    (Return (VList [ VDict (sample_delete "valid"); VStr "not a request";
                     VDict (sample_delete "valid") ])) =
  ({| db := {| COMMENT := [sample_c1]; CHANNEL := CHANNEL sample_db |};
      spawned := [DeleteChannelComment (VStr "c2") (VStr "ch1")] |},
   VDict [("error", ERRORS INVALID_REQUEST)]).
Proof.
  eapply (failed_batch_keeps_earlier_effects (H := sample_imports) sample_app
            [VDict (sample_delete "valid")] (VStr "not a request")
            [VDict (sample_delete "valid")]).
  - vm_compute. reflexivity.
  - exact I.
Defined.

Lemma create_comment_spawns_one_job_witness :
  ∃ app' response,
    process_json (H := sample_imports) sample_app
      (VDict [("id", VInt 9); ("method", VStr "create_comment");
              ("params", VDict [("comment", VStr "hi")])]) = (app', Return response) ∧
    response_envelope response (VInt 9) ∧
    spawned app' = [WriteComment (VDict [("comment", VStr "hi")])].
Proof.
  destruct (create_comment_spawns_one_job (H := sample_imports) sample_app
              [("id", VInt 9); ("method", VStr "create_comment");
               ("params", VDict [("comment", VStr "hi")])]
              (VInt 9) (VDict [("comment", VStr "hi")]) eq_refl eq_refl eq_refl)
    as (app' & response & Hrun & Henvelope & Hspawned & _).
  by exists app', response.
Defined.
